(** * Tu Avec backend: order workflow, OTP service, rate limiter, review moderation

    A shallow embedding of the request handlers of the repository
    ([src/routes/orders.js], [src/utils/helpers.js],
    [src/middleware/auth.js], the review routes) over an explicit store,
    followed by the properties of the specification that they decide.

    Conventions of the embedding.
    - A Mongo collection is the list of its documents in insertion order;
      [findOne] returns the first match.  Products are looked up by [_id]
      only, so that collection is a finite map from [_id] to the document.
    - JavaScript numbers that the handlers compute with (prices, quantities,
      stock, millisecond timestamps, star ratings) are integers, in [Z];
      the two places that leave the integers ([Math.round (avg * 10) / 10]
      and [Math.ceil (ms / 1000)]) are computed in [Q].
    - A handler is a function from the store and the request (plus what it
      reads from the clock or the random generator) to the response and the
      new store. *)

From Stdlib Require Import ZArith QArith Qround Lia Lqa.
From stdpp Require Import base decidable option list gmap strings fin_maps
  sorting.

Open Scope Z_scope.

(** ** JavaScript helpers *)

(** Truthiness of a possibly absent string: [undefined] and the empty
    string are falsy. *)
Definition truthy_str (s : option string) : bool :=
  match s with
  | Some x => negb (bool_decide (x = EmptyString))
  | None => false
  end.

(** Truthiness of a possibly absent number: [undefined] and [0] are falsy. *)
Definition truthy_num (n : option Z) : bool :=
  match n with
  | Some x => negb (x =? 0)
  | None => false
  end.

(** [v || d] for a number read out of an object used as a table. *)
Definition or_num (v : option Z) (d : Z) : Z :=
  match v with
  | Some x => if x =? 0 then d else x
  | None => d
  end.

(** [Math.round]: nearest integer, a tie going up. *)
Definition Math_round (q : Q) : Z := Qfloor (q + (1 # 2)).

(** [Math.ceil]. *)
Definition Math_ceil (q : Q) : Z := Qceiling q.

Definition ObjectId := string.

(** ** Shipping ([src/utils/helpers.js]) *)

Module Shipping.

Definition shippingRates : gmap string Z :=
  list_to_map
    [ ("Dhaka", 60); ("Chittagong", 100); ("Sylhet", 120);
      ("Rajshahi", 120); ("Khulna", 120); ("Barisal", 130);
      ("Rangpur", 130); ("Mymensingh", 100) ].

(** The names that every object literal inherits from
    [Object.prototype]: read from the literal, each of them gives a
    function (or, for [__proto__], the prototype object), never
    [undefined] and never a number. *)
Definition Object_prototype_names : list string :=
  ["constructor"; "__defineGetter__"; "__defineSetter__";
   "hasOwnProperty"; "__lookupGetter__"; "__lookupSetter__";
   "isPrototypeOf"; "propertyIsEnumerable"; "toString"; "valueOf";
   "__proto__"; "toLocaleString"].

(** [table[key]] on an object literal that holds numbers: the number
    under the key, a member inherited from [Object.prototype], or
    [undefined]. *)
Inductive Member :=
| Own (z : Z)
| Inherited (name : string)
| Missing.

Definition get (table : gmap string Z) (key : string) : Member :=
  match table !! key with
  | Some z => Own z
  | None =>
      if bool_decide (key ∈ Object_prototype_names) then Inherited key
      else Missing
  end.

(** What [calculateShipping] returns: a number, or the string that [+]
    makes of an inherited member followed by the additional fee. *)
Inductive ShippingCost :=
| Cost (z : Z)
| MemberThenFee (name : string) (additionalFee : Z).

Definition calculateShipping (region : string) (itemCount : Z)
    : ShippingCost :=
  let additionalFee := Z.max 0 (itemCount - 3) * 20 in
  match get shippingRates region with
  | Own z => Cost (or_num (Some z) 100 + additionalFee)
  | Inherited name => MemberThenFee name additionalFee
  | Missing => Cost (100 + additionalFee)
  end.

(** The parameter default of the source, [itemCount = 1]. *)
Definition calculateShipping_default (region : string) : ShippingCost :=
  calculateShipping region 1.

Definition deliveryDays : gmap string Z :=
  list_to_map
    [ ("Dhaka", 1); ("Chittagong", 2); ("Sylhet", 3); ("Rajshahi", 3);
      ("Khulna", 3); ("Barisal", 3); ("Rangpur", 3); ("Mymensingh", 2) ].

(** [setDate (getDate () + days)], a day taken as 86400000 ms.  With an
    inherited member for [days] the sum is a string that is no number
    and the date is invalid ([None]). *)
Definition estimateDelivery (region : string) (now : Z) : option Z :=
  match get deliveryDays region with
  | Own z => Some (now + or_num (Some z) 3 * 86400000)
  | Inherited _ => None
  | Missing => Some (now + 3 * 86400000)
  end.

(** The flat-rate table as the specification lists it. *)
Definition spec_base_rate (region : string) : Z :=
  if bool_decide (region = "Dhaka") then 60
  else if bool_decide (region = "Chittagong") then 100
  else if bool_decide (region = "Sylhet") then 120
  else if bool_decide (region = "Rajshahi") then 120
  else if bool_decide (region = "Khulna") then 120
  else if bool_decide (region = "Barisal") then 130
  else if bool_decide (region = "Rangpur") then 130
  else if bool_decide (region = "Mymensingh") then 100
  else 100.

Definition spec_surcharge (totalItemCount : Z) : Z :=
  Z.max 0 (totalItemCount - 3) * 20.

End Shipping.

(** ** Documents ([src/models/index.js]) *)

Record Product := mkProduct {
  p_title : string;
  p_slug : string;
  p_images : list string;        (* the [url] of each image *)
  p_price : Z;
  p_stock : Z;
  p_salesCount : Z;
  p_rating : Q;
  p_reviewCount : Z
}.

Record Customer := mkCustomer {
  c_name : string;
  c_email : string;
  c_phone : string
}.

Record ShippingAddress := mkShippingAddress {
  sa_fullName : string;
  sa_phone : string;
  sa_region : string;
  sa_city : string;
  sa_area : string;
  sa_address : string;
  sa_landmark : option string;
  sa_notes : option string
}.

Record Variant := mkVariant {
  v_name : string;
  v_value : string
}.

Record OrderItem := mkOrderItem {
  oi_product : ObjectId;
  oi_title : string;
  oi_slug : string;
  oi_image : option string;
  oi_price : Z;
  oi_quantity : Z;
  oi_variant : option Variant;
  oi_subtotal : Z
}.

Record TimelineEntry := mkTimelineEntry {
  tl_status : string;
  tl_message : string;
  tl_timestamp : Z;
  tl_updatedBy : option ObjectId
}.

Record PaymentDetails := mkPaymentDetails {
  pd_transactionId : option string;
  pd_senderNumber : option string;
  pd_amount : option Z;
  pd_verifiedBy : ObjectId;
  pd_verifiedAt : Z
}.

Record Courier := mkCourier {
  co_name : option string;
  co_trackingNumber : option string;
  co_trackingUrl : option string
}.

Record ReturnRequest := mkReturnRequest {
  rr_requested : bool;
  rr_reason : option string;
  rr_status : string
}.

Record Order := mkOrder {
  o_id : ObjectId;
  o_orderNumber : string;
  o_user : option ObjectId;
  o_customer : Customer;
  o_shippingAddress : ShippingAddress;
  o_items : list OrderItem;
  o_subtotal : Z;
  o_shippingCost : Z;
  o_discount : Z;
  o_discountCode : option string;
  o_total : Z;
  o_paymentMethod : string;
  o_paymentStatus : string;
  o_paymentDetails : option PaymentDetails;
  o_status : string;
  o_timeline : list TimelineEntry;
  o_courier : option Courier;
  o_estimatedDelivery : Z;
  o_deliveredAt : option Z;
  o_returnRequest : option ReturnRequest;
  o_ipAddress : string;
  o_userAgent : option string;
  o_updatedAt : Z
}.

Record Review := mkReview {
  r_id : ObjectId;
  r_product : ObjectId;
  r_user : ObjectId;
  r_order : option ObjectId;
  r_rating : Z;
  r_title : option string;
  r_comment : string;
  r_images : list string;
  r_status : string;
  r_isVerifiedPurchase : bool;
  r_adminResponse : option string;
  r_adminResponseDate : option Z;
  r_helpful : Z;
  r_notHelpful : Z
}.

(** The store the order and review handlers work on. *)
Record Db := mkDb {
  products : gmap ObjectId Product;
  orders : list Order;
  reviews : list Review
}.

(** [Product.findByIdAndUpdate (id, upd)]: nothing happens when the
    document does not exist. *)
Definition Product_findByIdAndUpdate
    (id : ObjectId) (upd : Product → Product)
    (ps : gmap ObjectId Product) : gmap ObjectId Product :=
  alter upd id ps.

(** The update [{ $inc: { stock: -q, salesCount: q } }]. *)
Definition inc_stock_sales (q : Z) (p : Product) : Product :=
  mkProduct (p_title p) (p_slug p) (p_images p) (p_price p)
            (p_stock p + - q) (p_salesCount p + q)
            (p_rating p) (p_reviewCount p).

(** The update [{ rating: r, reviewCount: n }]. *)
Definition set_rating (r : Q) (n : Z) (p : Product) : Product :=
  mkProduct (p_title p) (p_slug p) (p_images p) (p_price p)
            (p_stock p) (p_salesCount p) r n.

(** ** HTTP responses *)

Record Response (A : Type) := mkResponse {
  res_status : Z;
  res_success : bool;
  res_error : option string;
  res_message : option string;
  res_retryAfter : option Z;
  res_payload : option A           (* the document sent back, if any *)
}.

Arguments mkResponse {A}.
Arguments res_status {A}.
Arguments res_success {A}.
Arguments res_error {A}.
Arguments res_message {A}.
Arguments res_retryAfter {A}.
Arguments res_payload {A}.

Definition json_error {A} (code : Z) (err : string) : Response A :=
  mkResponse code false (Some err) None None None.

Definition json_ok {A} (code : Z) (msg : string) (doc : option A)
    : Response A :=
  mkResponse code true None (Some msg) None doc.

(** ** Order workflow ([src/routes/orders.js]) *)

Module Orders.

Record ItemReq := mkItemReq {
  productId : ObjectId;
  quantity : Z;
  variant : option Variant
}.

Record CreateOrderReq := mkCreateOrderReq {
  rq_customer : option Customer;
  rq_shippingAddress : option ShippingAddress;
  rq_items : option (list ItemReq);
  rq_paymentMethod : option string;
  rq_discountCode : option string;
  rq_userId : option ObjectId;      (* set by [optionalAuth] *)
  rq_ip : string;
  rq_userAgent : option string
}.

(** What a request reads from outside the store: the clock, the [_id]
    the driver assigns and the order number the [pre('save')] hook would
    draw from the clock and [Math.random]. *)
Record Env := mkEnv {
  env_now : Z;
  env_newId : ObjectId;
  env_orderNumber : string
}.

(** *** Schema checks of [Order.create] *)

Definition required (s : string) : bool :=
  negb (bool_decide (s = EmptyString)).

Definition paymentMethods : list string :=
  ["cod"; "bkash"; "nagad"; "rocket"; "card"].

Definition paymentStatuses : list string :=
  ["unpaid"; "pending"; "paid"; "refunded"].

Definition validStatuses : list string :=
  ["pending"; "confirmed"; "processing"; "shipped"; "delivered";
   "cancelled"; "returned"].

Definition orderSchema_validate (o : Order) : bool :=
  required (o_orderNumber o)
  && required (c_name (o_customer o))
  && required (c_email (o_customer o))
  && required (c_phone (o_customer o))
  && required (sa_fullName (o_shippingAddress o))
  && required (sa_phone (o_shippingAddress o))
  && required (sa_region (o_shippingAddress o))
  && required (sa_city (o_shippingAddress o))
  && required (sa_address (o_shippingAddress o))
  && forallb (λ i, required (oi_title i)) (o_items o)
  && bool_decide (o_paymentMethod o ∈ paymentMethods)
  && bool_decide (o_paymentStatus o ∈ paymentStatuses)
  && bool_decide (o_status o ∈ validStatuses).

(** The [pre('save')] hook of the schema: it draws an order number when
    the document has none and stamps [updatedAt]. *)
Definition Order_preSave (env : Env) (o : Order) : Order :=
  mkOrder (o_id o)
          (if bool_decide (o_orderNumber o = EmptyString)
           then env_orderNumber env else o_orderNumber o)
          (o_user o) (o_customer o)
          (o_shippingAddress o) (o_items o) (o_subtotal o)
          (o_shippingCost o) (o_discount o) (o_discountCode o)
          (o_total o) (o_paymentMethod o) (o_paymentStatus o)
          (o_paymentDetails o) (o_status o) (o_timeline o) (o_courier o)
          (o_estimatedDelivery o) (o_deliveredAt o) (o_returnRequest o)
          (o_ipAddress o) (o_userAgent o) (env_now env).

(** [Order.create]: Mongoose validates the document against the schema
    first, runs the [pre('save')] hook on a valid document only, and
    inserts it; [orderNumber] carries a unique index, [_id] is the key.
    The result is the saved document and the collection, or [None] for
    the exception the handler catches. *)
Definition Order_create (env : Env) (o : Order) (os : list Order)
    : option (Order * list Order) :=
  if orderSchema_validate o
  then
    let saved := Order_preSave env o in
    if bool_decide (o_orderNumber saved ∉ o_orderNumber <$> os)
       && bool_decide (o_id saved ∉ o_id <$> os)
    then Some (saved, os ++ [saved])
    else None
  else None.

(** An order with its mutable fields replaced; the handlers below change
    no other field. *)
Definition Order_with (o : Order)
    (paymentStatus : string) (paymentDetails : option PaymentDetails)
    (status : string) (timeline : list TimelineEntry)
    (courier : option Courier) (deliveredAt : option Z)
    (returnRequest : option ReturnRequest) (updatedAt : Z) : Order :=
  mkOrder (o_id o) (o_orderNumber o) (o_user o) (o_customer o)
          (o_shippingAddress o) (o_items o) (o_subtotal o)
          (o_shippingCost o) (o_discount o) (o_discountCode o)
          (o_total o) (o_paymentMethod o) paymentStatus paymentDetails
          status timeline courier (o_estimatedDelivery o) deliveredAt
          returnRequest (o_ipAddress o) (o_userAgent o) updatedAt.

(** [order.save ()] on the document that [findOne] returned at index [i];
    the [pre('save')] hook stamps [updatedAt]. *)
Definition Order_save (i : nat) (o : Order) (os : list Order) : list Order :=
  <[i := o]> os.

(** *** Create order *)

(** Step 1: [!customer || !shippingAddress || !items || !items.length
    || !paymentMethod]. *)
Definition requiredFields (req : CreateOrderReq)
    : option (Customer * ShippingAddress * list ItemReq * string) :=
  match rq_customer req, rq_shippingAddress req,
        rq_items req, rq_paymentMethod req with
  | Some customer, Some shippingAddress, Some items, Some paymentMethod =>
      if bool_decide (items = []) || negb (required paymentMethod)
      then None
      else Some (customer, shippingAddress, items, paymentMethod)
  | _, _, _, _ => None
  end.

(** Step 2, the first loop over [items]: it returns the response of the
    first item that fails, or the subtotal and the snapshots. *)
Fixpoint priceItems (ps : gmap ObjectId Product) (items : list ItemReq)
    (subtotal : Z) (orderItems : list OrderItem)
    : Response Order + (Z * list OrderItem) :=
  match items with
  | [] => inr (subtotal, orderItems)
  | item :: rest =>
      match ps !! productId item with
      | None =>
          inl (json_error 404
                 ("Product not found: " +:+ productId item))
      | Some product =>
          if p_stock product <? quantity item
          then inl (json_error 400
                      ("Insufficient stock for " +:+ p_title product))
          else
            let itemSubtotal := p_price product * quantity item in
            priceItems ps rest (subtotal + itemSubtotal)
              (orderItems ++
               [mkOrderItem (productId item) (p_title product)
                  (p_slug product) (head (p_images product))
                  (p_price product) (quantity item) (variant item)
                  itemSubtotal])
      end
  end.

(** [items.reduce ((sum, item) => sum + item.quantity, 0)]. *)
Definition totalItemCount (items : list ItemReq) : Z :=
  fold_left (λ sum item, sum + quantity item) items 0.

(** The second loop over [items]: one [findByIdAndUpdate] with
    [$inc: { stock: -quantity, salesCount: quantity }] per item. *)
Definition updateStock (items : list ItemReq) (ps : gmap ObjectId Product)
    : gmap ObjectId Product :=
  fold_left
    (λ ps item,
       Product_findByIdAndUpdate (productId item)
         (inc_stock_sales (quantity item)) ps)
    items ps.

(** The document that the handler hands to [Order.create].  It carries
    no [orderNumber], which reads as the empty string here: the schema's
    [required] and the hook's [!this.orderNumber] treat the absent and
    the empty string alike.  A shipping cost that is no number or an
    invalid delivery date does not cast to the schema ([None]). *)
Definition orderDocument (env : Env) (req : CreateOrderReq)
    (customer : Customer) (shippingAddress : ShippingAddress)
    (paymentMethod : string) (subtotal : Z) (orderItems : list OrderItem)
    (shippingCost : Shipping.ShippingCost)
    (estimatedDelivery : option Z) : option Order :=
  match shippingCost, estimatedDelivery with
  | Shipping.Cost shippingCost, Some estimatedDelivery =>
      let discount := 0 in
      let total := subtotal + shippingCost - discount in
      Some
        (mkOrder (env_newId env) EmptyString (rq_userId req)
           customer shippingAddress orderItems subtotal shippingCost
           discount (rq_discountCode req) total paymentMethod
           (if bool_decide (paymentMethod = "cod")
            then "unpaid" else "pending")
           None "pending"
           [mkTimelineEntry "pending" "Order placed successfully"
                            (env_now env) None]
           None estimatedDelivery None None (rq_ip req)
           (rq_userAgent req) (env_now env))
  | _, _ => None
  end.

(** [POST /orders].  The two notification calls after the stock update
    only log and touch no collection. *)
Definition createOrder (env : Env) (req : CreateOrderReq) (db : Db)
    : Response Order * Db :=
  match requiredFields req with
  | None => (json_error 400 "Missing required fields", db)
  | Some (customer, shippingAddress, items, paymentMethod) =>
      match priceItems (products db) items 0 [] with
      | inl res => (res, db)
      | inr (subtotal, orderItems) =>
          let shippingCost :=
            Shipping.calculateShipping (sa_region shippingAddress)
                                       (totalItemCount items) in
          let estimatedDelivery :=
            Shipping.estimateDelivery (sa_region shippingAddress)
                                      (env_now env) in
          match orderDocument env req customer shippingAddress
                  paymentMethod subtotal orderItems shippingCost
                  estimatedDelivery
                ≫= λ order, Order_create env order (orders db) with
          | None => (json_error 500 "Failed to create order", db)
          | Some (order, orders') =>
              let products' := updateStock items (products db) in
              (json_ok 201 "Order placed successfully" (Some order),
               mkDb products' orders' (reviews db))
          end
      end
  end.

(** *** Update order status (admin) *)

Definition findByOrderNumber (orderNumber : string) (os : list Order)
    : option (nat * Order) :=
  list_find (λ o, o_orderNumber o = orderNumber) os.

(** [{ ...order.courier, ...(courierName && { name: courierName }),
      ...(trackingNumber && { trackingNumber }) }]. *)
Definition mergeCourier (old : option Courier)
    (courierName trackingNumber : option string) : Courier :=
  mkCourier
    (if truthy_str courierName then courierName else old ≫= co_name)
    (if truthy_str trackingNumber then trackingNumber
     else old ≫= co_trackingNumber)
    (old ≫= co_trackingUrl).

Definition updateOrderStatus (now : Z) (adminId : ObjectId)
    (orderNumber : string) (status : string) (message : option string)
    (courierName trackingNumber : option string) (db : Db)
    : Response Order * Db :=
  if negb (bool_decide (status ∈ validStatuses))
  then (json_error 400 "Invalid status", db)
  else
    match findByOrderNumber orderNumber (orders db) with
    | None => (json_error 404 "Order not found", db)
    | Some (i, order) =>
        let entry :=
          mkTimelineEntry status
            (if truthy_str message then default EmptyString message
             else "Order " +:+ status)
            now (Some adminId) in
        let courier :=
          if truthy_str courierName || truthy_str trackingNumber
          then Some (mergeCourier (o_courier order)
                                  courierName trackingNumber)
          else o_courier order in
        let deliveredAt :=
          if bool_decide (status = "delivered") then Some now
          else o_deliveredAt order in
        let order' :=
          Order_with order (o_paymentStatus order)
            (o_paymentDetails order) status
            (o_timeline order ++ [entry]) courier deliveredAt
            (o_returnRequest order) now in
        (json_ok 200 "Order status updated successfully" (Some order'),
         mkDb (products db) (Order_save i order' (orders db))
              (reviews db))
    end.

(** *** Verify payment (admin) *)

Definition verifyPayment (now : Z) (adminId : ObjectId)
    (orderNumber : string)
    (transactionId senderNumber : option string) (amount : option Z)
    (db : Db) : Response Order * Db :=
  match findByOrderNumber orderNumber (orders db) with
  | None => (json_error 404 "Order not found", db)
  | Some (i, order) =>
      let paymentDetails :=
        mkPaymentDetails transactionId senderNumber amount adminId now in
      let order' :=
        Order_with order "paid" (Some paymentDetails) (o_status order)
          (o_timeline order) (o_courier order) (o_deliveredAt order)
          (o_returnRequest order) now in
      (json_ok 200 "Payment verified successfully" (Some order'),
       mkDb (products db) (Order_save i order' (orders db)) (reviews db))
  end.

(** *** Request return (customer) *)

Definition requestReturn (now : Z) (userId : ObjectId)
    (orderNumber : string) (reason : option string) (db : Db)
    : Response Order * Db :=
  match list_find (λ o, o_orderNumber o = orderNumber
                        ∧ o_user o = Some userId) (orders db) with
  | None => (json_error 404 "Order not found", db)
  | Some (i, order) =>
      if negb (bool_decide (o_status order = "delivered"))
      then (json_error 400 "Only delivered orders can be returned", db)
      else
        let order' :=
          Order_with order (o_paymentStatus order)
            (o_paymentDetails order) (o_status order) (o_timeline order)
            (o_courier order) (o_deliveredAt order)
            (Some (mkReturnRequest true reason "pending")) now in
        (json_ok 200 "Return request submitted successfully" None,
         mkDb (products db) (Order_save i order' (orders db))
              (reviews db))
  end.

(** *** Sequences of requests *)

Inductive Op :=
| CreateOrder (env : Env) (req : CreateOrderReq)
| UpdateOrderStatus (now : Z) (adminId : ObjectId) (orderNumber : string)
    (status : string) (message courierName trackingNumber : option string)
| VerifyPayment (now : Z) (adminId : ObjectId) (orderNumber : string)
    (transactionId senderNumber : option string) (amount : option Z)
| RequestReturn (now : Z) (userId : ObjectId) (orderNumber : string)
    (reason : option string).

Definition step (op : Op) (db : Db) : Db :=
  match op with
  | CreateOrder env req => (createOrder env req db).2
  | UpdateOrderStatus now adminId orderNumber status message
      courierName trackingNumber =>
      (updateOrderStatus now adminId orderNumber status message
         courierName trackingNumber db).2
  | VerifyPayment now adminId orderNumber transactionId senderNumber
      amount =>
      (verifyPayment now adminId orderNumber transactionId senderNumber
         amount db).2
  | RequestReturn now userId orderNumber reason =>
      (requestReturn now userId orderNumber reason db).2
  end.

Definition run (ops : list Op) (db : Db) : Db :=
  fold_left (λ db op, step op db) ops db.

(** *** Vocabulary of the specification *)

(** A line item that step 2 refuses: its product is missing, or the
    requested quantity is greater than the product's stock. *)
Definition badItem (ps : gmap ObjectId Product) (item : ItemReq) : Prop :=
  match ps !! productId item with
  | None => True
  | Some product => p_stock product < quantity item
  end.

Definition livePrice (ps : gmap ObjectId Product) (id : ObjectId) : Z :=
  from_option p_price 0 (ps !! id).

(** The sum over the line items of live price times quantity. *)
Definition spec_subtotal (ps : gmap ObjectId Product)
    (items : list ItemReq) : Z :=
  foldr Z.add 0
    ((λ item, livePrice ps (productId item) * quantity item) <$> items).

(** The sum of the requested quantities. *)
Definition spec_totalItemCount (items : list ItemReq) : Z :=
  foldr Z.add 0 (quantity <$> items).

(** The quantity a request orders of one product, over all its lines. *)
Definition orderedQuantity (id : ObjectId) (items : list ItemReq) : Z :=
  foldr Z.add 0
    (quantity <$> filter (λ item, productId item = id) items).

Definition pricing (o : Order) : Z * Z * Z * Z :=
  (o_subtotal o, o_shippingCost o, o_discount o, o_total o).


End Orders.

(** ** OTP service ([src/utils/helpers.js]) *)

Module Otp.

Record OtpDoc := mkOtpDoc {
  phone : string;
  otp : string;
  purpose : string;
  expiresAt : Z;
  verified : bool;
  attempts : Z
}.

Definition purposes : list string := ["signup"; "login"; "reset"].

Record Result := mkResult {
  success : bool;
  error : option string
}.

(** [OTP.deleteMany ({ phone, purpose })]. *)
Definition OTP_deleteMany (ph pu : string) (docs : list OtpDoc)
    : list OtpDoc :=
  filter (λ d, ¬ (phone d = ph ∧ purpose d = pu)) docs.

(** [OTP.create]: [phone] and [otp] are required, [purpose] is one of the
    enumeration; [None] is the validation exception. *)
Definition OTP_create (d : OtpDoc) (docs : list OtpDoc)
    : option (list OtpDoc) :=
  if negb (bool_decide (phone d = EmptyString))
     && negb (bool_decide (otp d = EmptyString))
     && bool_decide (purpose d ∈ purposes)
  then Some (docs ++ [d])
  else None.

(** [saveOTP]; [code] is what [generateOTP ()] drew.  When [OTP.create]
    throws, the old rows are already deleted. *)
Definition saveOTP (now : Z) (code : string) (ph pu : string)
    (docs : list OtpDoc) : option string * list OtpDoc :=
  let expires := now + 5 * 60 * 1000 in
  let docs1 := OTP_deleteMany ph pu docs in
  match OTP_create (mkOtpDoc ph code pu expires false 0) docs1 with
  | Some docs2 => (Some code, docs2)
  | None => (None, docs1)
  end.

(** The query of [verifyOTP]:
    [{ phone, otp, purpose, verified: false, expiresAt: { $gt: now } }]. *)
Definition matches (now : Z) (ph code pu : string) (d : OtpDoc) : Prop :=
  phone d = ph ∧ otp d = code ∧ purpose d = pu
  ∧ verified d = false ∧ expiresAt d > now.

Global Instance matches_dec now ph code pu d :
  Decision (matches now ph code pu d).
Proof. unfold matches. apply _. Defined.

Definition verifyOTP (now : Z) (ph code pu : string)
    (docs : list OtpDoc) : Result * list OtpDoc :=
  match list_find (matches now ph code pu) docs with
  | None => (mkResult false (Some "Invalid or expired OTP"), docs)
  | Some (i, otpDoc) =>
      let attempts' := attempts otpDoc + 1 in
      if attempts' >? 3
      then (mkResult false
              (Some "Too many attempts. Please request a new OTP."),
            delete i docs)
      else (mkResult true None,
            <[i := mkOtpDoc (phone otpDoc) (otp otpDoc) (purpose otpDoc)
                            (expiresAt otpDoc) true attempts']> docs)
  end.

(** The TTL index on [expiresAt]: the store drops expired rows. *)
Definition expire (now : Z) (docs : list OtpDoc) : list OtpDoc :=
  filter (λ d, ¬ (expiresAt d <= now)) docs.

(** The calls that reach the collection. *)
Inductive Op :=
| Issue (now : Z) (code ph pu : string)
| Verify (now : Z) (ph code pu : string)
| Expire (now : Z).

Definition step (op : Op) (docs : list OtpDoc) : list OtpDoc :=
  match op with
  | Issue now code ph pu => (saveOTP now code ph pu docs).2
  | Verify now ph code pu => (verifyOTP now ph code pu docs).2
  | Expire now => expire now docs
  end.

Definition run (ops : list Op) (docs : list OtpDoc) : list OtpDoc :=
  fold_left (λ docs op, step op docs) ops docs.

(** An issue for the given phone and purpose. *)
Definition issues_for (ph pu : string) (op : Op) : Prop :=
  match op with
  | Issue _ _ ph' pu' => ph' = ph ∧ pu' = pu
  | _ => False
  end.

Definition invalid_or_expired : Result :=
  mkResult false (Some "Invalid or expired OTP").

Definition too_many_attempts : Result :=
  mkResult false (Some "Too many attempts. Please request a new OTP.").

(** The collection holds at most one row per phone and purpose. *)
Definition one_per_key (docs : list OtpDoc) : Prop :=
  NoDup ((λ d, (phone d, purpose d)) <$> docs).

(** Every row of the phone and purpose is consumed. *)
Definition consumed (ph pu : string) (docs : list OtpDoc) : Prop :=
  Forall (λ d, phone d = ph → purpose d = pu → verified d = true) docs.

(** A row that is not consumed has not been counted against. *)
Definition fresh_attempts (docs : list OtpDoc) : Prop :=
  Forall (λ d, verified d = false → attempts d = 0) docs.

End Otp.

(** ** Rate limiter ([src/middleware/auth.js]) *)

Module RateLimit.

Record RateData := mkRateData {
  count : Z;
  resetTime : Z
}.

Record Options := mkOptions {
  windowMs : Z;
  max : Z;
  message : string
}.

Definition defaultOptions : Options :=
  mkOptions (15 * 60 * 1000) 100
            "Too many requests, please try again later.".

Definition loginRateLimit : Options :=
  mkOptions (15 * 60 * 1000) 5
    "Too many login attempts. Please try again after 15 minutes.".

Definition otpRateLimit : Options :=
  mkOptions (5 * 60 * 1000) 3
    "Too many OTP requests. Please try again after 5 minutes.".

Definition orderRateLimit : Options :=
  mkOptions (60 * 60 * 1000) 10
    "Too many orders. Please try again later.".

(** What the middleware does with the request: answer 429, or set the
    three headers and call [next ()]. *)
Inductive Outcome :=
| Rejected (res : Response unit)
| Next (limit remaining resetAt : Z).

(** The clean-up loop: every entry with [now - v.resetTime > windowMs]
    is deleted. *)
Definition cleanup (opts : Options) (now : Z)
    (store : gmap string RateData) : gmap string RateData :=
  filter (λ kv, ¬ (now - resetTime kv.2 > windowMs opts)) store.

(** The middleware that [rateLimit (opts)] returns, applied to a request
    of client [key] at time [now], on the module-level
    [rateLimitStore]. *)
Definition rateLimit (opts : Options) (key : string) (now : Z)
    (store : gmap string RateData) : Outcome * gmap string RateData :=
  let store1 := cleanup opts now store in
  let '(rateData, store2) :=
    match store1 !! key with
    | Some rateData => (rateData, store1)
    | None =>
        let rateData := mkRateData 0 now in
        (rateData, <[key := rateData]> store1)
    end in
  let rateData :=
    if now - resetTime rateData >? windowMs opts
    then mkRateData 0 now
    else rateData in
  let rateData := mkRateData (count rateData + 1) (resetTime rateData) in
  let store3 := <[key := rateData]> store2 in
  if count rateData >? max opts
  then
    (Rejected
       (mkResponse 429 false (Some (message opts)) None
          (Some (Math_ceil
                   (inject_Z (resetTime rateData + windowMs opts - now)
                    / inject_Z 1000)))
          None),
     store3)
  else
    (Next (max opts) (Z.max 0 (max opts - count rateData))
          (resetTime rateData + windowMs opts),
     store3).

(** The fixed-window algorithm in the words of the specification, on the
    entry of one key: if [now - windowStart > windowMs] the counter
    resets to 0 and the window start advances to [now]; the counter is
    then incremented and compared to [max]. *)
Definition spec_window (opts : Options) (now : Z)
    (entry : option RateData) : RateData :=
  match entry with
  | None => mkRateData 1 now
  | Some e =>
      if now - resetTime e >? windowMs opts
      then mkRateData 1 now
      else mkRateData (count e + 1) (resetTime e)
  end.

(** *** Sequences of requests through one limiter *)

(** A request: the client key and the time it arrives. *)
Definition Request : Type := string * Z.

Definition serve (opts : Options) (reqs : list Request)
    (store : gmap string RateData) : gmap string RateData :=
  fold_left (λ store r, (rateLimit opts r.1 r.2 store).2) reqs store.

(** The number of requests of [key] that arrived at [start] or later. *)
Definition requests_since (key : string) (start : Z)
    (reqs : list Request) : Z :=
  Z.of_nat (length (filter (λ r, r.1 = key ∧ start <= r.2) reqs)).

(** No request arrives earlier than one before it. *)
Definition chronological (reqs : list Request) : Prop :=
  ∀ pre r post, reqs = pre ++ r :: post → Forall (λ r', r'.2 <= r.2) pre.

(** What the store records about the requests served so far, the last
    of them no later than [T]: the count of a live entry is the number
    of requests of its key since its window start, all requests of the
    key fit in that window, and a key without entry has no request as
    late as [T]. *)
Definition window_inv (opts : Options) (reqs : list Request) (T : Z)
    (store : gmap string RateData) : Prop :=
  ∀ k,
    match store !! k with
    | Some e =>
        count e = requests_since k (resetTime e) reqs
        ∧ resetTime e <= T
        ∧ Forall (λ r, r.1 = k → r.2 <= resetTime e + windowMs opts) reqs
    | None => Forall (λ r, r.1 = k → r.2 < T) reqs
    end.

End RateLimit.

(** ** Review moderation (the review routes) *)

Module Reviews.

Record CreateReviewReq := mkCreateReviewReq {
  rq_productId : option ObjectId;
  rq_orderId : option ObjectId;
  rq_rating : option Z;
  rq_title : option string;
  rq_comment : option string;
  rq_images : list string
}.

(** One row of [$group: { _id: null, averageRating: { $avg: '$rating' },
    count: { $sum: 1 } }]. *)
Record Group := mkGroup {
  averageRating : Q;
  count : Z
}.

(** [$match: { product: productId, status: 'approved' }]. *)
Definition approved_of (productId : ObjectId) (rs : list Review)
    : list Review :=
  filter (λ r, r_product r = productId ∧ r_status r = "approved") rs.

Definition sum_ratings (rs : list Review) : Z :=
  foldr (λ r acc, r_rating r + acc) 0 rs.

(** The value that a caller hands to [updateProductRating]: the
    [productId] string of a request body, or the [product] reference of
    a stored review, an [ObjectId]. *)
Inductive ProductRef :=
| FromRequest (productId : string)
| FromDocument (productId : ObjectId).

(** The document that [Product.findByIdAndUpdate] looks for: it casts
    its argument to an [ObjectId]. *)
Definition ref_id (productId : ProductRef) : ObjectId :=
  match productId with
  | FromRequest id => id
  | FromDocument id => id
  end.

(** [Review.aggregate ([$match, $group])]: one group when some document
    matches, no row otherwise.  The stages of a pipeline are sent as
    they are: a string is not cast to an [ObjectId] and equals the
    [product] of no stored review. *)
Definition Review_aggregate (productId : ProductRef) (rs : list Review)
    : list Group :=
  match productId with
  | FromRequest _ => []
  | FromDocument id =>
      match approved_of id rs with
      | [] => []
      | matched =>
          [mkGroup (inject_Z (sum_ratings matched)
                    / inject_Z (Z.of_nat (length matched)))
                   (Z.of_nat (length matched))]
      end
  end.

Definition updateProductRating (productId : ProductRef) (db : Db) : Db :=
  match Review_aggregate productId (reviews db) with
  | result0 :: _ =>
      mkDb
        (Product_findByIdAndUpdate (ref_id productId)
           (set_rating
              (inject_Z (Math_round (averageRating result0 * inject_Z 10))
               / inject_Z 10)
              (count result0))
           (products db))
        (orders db) (reviews db)
  | [] => db
  end.

(** The verified-purchase query: [{ _id: orderId, user: req.userId,
    'items.product': productId, status: 'delivered' }]. *)
Definition purchase_query (orderId userId productId : ObjectId)
    (o : Order) : Prop :=
  o_id o = orderId ∧ o_user o = Some userId
  ∧ productId ∈ (oi_product <$> o_items o) ∧ o_status o = "delivered".

Global Instance purchase_query_dec orderId userId productId o :
  Decision (purchase_query orderId userId productId o).
Proof. unfold purchase_query. apply _. Defined.

(** [POST /reviews] for the authenticated [userId]; [newId] is the [_id]
    the driver assigns. *)
Definition createReview (newId : ObjectId) (userId : ObjectId)
    (req : CreateReviewReq) (db : Db) : Response Review * Db :=
  match rq_productId req, rq_rating req, rq_comment req with
  | Some productId, Some rating, Some comment =>
      if negb (truthy_str (Some productId))
         || negb (truthy_num (Some rating))
         || negb (truthy_str (Some comment))
      then (json_error 400 "Product, rating, and comment are required", db)
      else if (rating <? 1) || (rating >? 5)
      then (json_error 400 "Rating must be between 1 and 5", db)
      else
        match list_find (λ r, r_product r = productId ∧ r_user r = userId)
                        (reviews db) with
        | Some _ =>
            (json_error 400 "You have already reviewed this product", db)
        | None =>
            let isVerifiedPurchase :=
              match rq_orderId req with
              | Some orderId =>
                  if truthy_str (Some orderId)
                  then bool_decide
                         (is_Some
                            (list_find
                               (purchase_query orderId userId productId)
                               (orders db)))
                  else false
              | None => false
              end in
            let review :=
              mkReview newId productId userId (rq_orderId req) rating
                (rq_title req) comment (rq_images req) "pending"
                isVerifiedPurchase None None 0 0 in
            let db1 :=
              mkDb (products db) (orders db) (reviews db ++ [review]) in
            let db2 := updateProductRating (FromRequest productId) db1 in
            (json_ok 201
               "Review submitted successfully. It will be published after moderation."
               (Some review),
             db2)
        end
  | _, _, _ =>
      (json_error 400 "Product, rating, and comment are required", db)
  end.

(** The update document of the moderation route:
    [{ status, ...(adminResponse && { adminResponse, adminResponseDate }) }]. *)
Definition moderated (now : Z) (status : string)
    (adminResponse : option string) (r : Review) : Review :=
  mkReview (r_id r) (r_product r) (r_user r) (r_order r) (r_rating r)
    (r_title r) (r_comment r) (r_images r) status
    (r_isVerifiedPurchase r)
    (if truthy_str adminResponse then adminResponse
     else r_adminResponse r)
    (if truthy_str adminResponse then Some now
     else r_adminResponseDate r)
    (r_helpful r) (r_notHelpful r).

(** [PATCH /reviews/:reviewId/moderate] (admin). *)
Definition moderateReview (now : Z) (reviewId : ObjectId)
    (status : string) (adminResponse : option string) (db : Db)
    : Response Review * Db :=
  if negb (bool_decide (status ∈ ["approved"; "rejected"]))
  then (json_error 400 "Invalid status", db)
  else
    match list_find (λ r, r_id r = reviewId) (reviews db) with
    | None => (json_error 404 "Review not found", db)
    | Some (i, old) =>
        let review := moderated now status adminResponse old in
        let db1 :=
          mkDb (products db) (orders db) (<[i := review]> (reviews db)) in
        let db2 :=
          if bool_decide (status = "approved")
          then updateProductRating (FromDocument (r_product review)) db1
          else db1 in
        (json_ok 200 ("Review " +:+ status +:+ " successfully")
                 (Some review),
         db2)
    end.

(** The mean of a list of ratings, as a rational. *)
Definition mean (ratings : list Z) : Q :=
  inject_Z (foldr Z.add 0 ratings) / inject_Z (Z.of_nat (length ratings)).

(** The rating and the count that [updateProductRating] writes for a
    non-empty list of matched reviews. *)
Definition rating_of (matched : list Review) : Q :=
  inject_Z (Math_round (inject_Z (sum_ratings matched)
                        / inject_Z (Z.of_nat (length matched))
                        * inject_Z 10))
  / inject_Z 10.

(** The stored rating fields of the product are the aggregate of its
    approved reviews. *)
Definition in_sync (productId : ObjectId) (db : Db) : Prop :=
  ∀ p, products db !! productId = Some p →
       p_rating p = rating_of (approved_of productId (reviews db))
       ∧ p_reviewCount p
         = Z.of_nat (length (approved_of productId (reviews db))).

(** [q] is [x] rounded to one decimal place: a whole number of tenths,
    the nearest one to [x], a tie going up. *)
Definition rounded_1dp (x q : Q) : Prop :=
  ∃ t : Z,
    (q == inject_Z t / inject_Z 10)%Q
    ∧ (inject_Z t - (1 # 2) <= x * inject_Z 10)%Q
    ∧ (x * inject_Z 10 < inject_Z t + (1 # 2))%Q.

End Reviews.

(** ** Concrete stores and requests used below *)

Module Scenario.
Import Orders.

Definition widget : Product :=
  mkProduct "Widget" "widget" ["widget.png"] 250 5 0 (0 # 1) 0.

Definition db_widget : Db := mkDb {[ "p1" := widget ]} [] [].

Definition alice : Customer :=
  mkCustomer "Alice" "alice@example.com" "01712345678".

Definition banani : ShippingAddress :=
  mkShippingAddress "Alice" "01712345678" "Dhaka" "Dhaka" "Banani"
                    "Road 11" None None.

Definition env1 : Env := mkEnv 1700000000000 "o1" "TUA-00000000-ABCDE".

Definition order_of (items : list ItemReq) : CreateOrderReq :=
  mkCreateOrderReq (Some alice) (Some banani) (Some items) (Some "cod")
                   None None "10.0.0.1" None.


Definition req_two : CreateOrderReq := order_of [mkItemReq "p1" 2 None].

Definition req_six : CreateOrderReq := order_of [mkItemReq "p1" 6 None].

(** A store that holds one order of two widgets. *)
Definition order1 : Order :=
  mkOrder "o1" "TUA-00000000-ABCDE" None alice banani
    [mkOrderItem "p1" "Widget" "widget" (Some "widget.png") 250 2 None
                 500]
    500 60 0 None 560 "cod" "unpaid" None "pending"
    [mkTimelineEntry "pending" "Order placed successfully" 1700000000000
                     None]
    None 1700086400000 None None "10.0.0.1" None 1700000000000.

Definition db_ordered : Db :=
  mkDb {[ "p1" := inc_stock_sales 2 widget ]} [order1] [].

(** The example of the specification: an OTP issued at time 0 for phone
    01712345678, purpose login, code 123456. *)
Definition otp_issued : list Otp.OtpDoc :=
  (Otp.saveOTP 0 "123456" "01712345678" "login" []).2.

Definition wrong_code (now : Z) : Otp.Op :=
  Otp.Verify now "01712345678" "000000" "login".

Definition review_of (productId : ObjectId) (rating : Z)
    : Reviews.CreateReviewReq :=
  Reviews.mkCreateReviewReq (Some productId) None (Some rating) None
                            (Some "As described") [].

Definition db_two_pending : Db :=
  let db1 := (Reviews.createReview "r1" "u1" (review_of "p1" 5)
                db_widget).2 in
  (Reviews.createReview "r2" "u2" (review_of "p1" 1) db1).2.

(** Three OTP requests of one client within three seconds. *)
Definition three_requests : list RateLimit.Request :=
  [("10.0.0.1", 0); ("10.0.0.1", 1000); ("10.0.0.1", 2000)].

Definition store_after_three : gmap string RateLimit.RateData :=
  RateLimit.serve RateLimit.otpRateLimit three_requests ∅.

End Scenario.

From Stdlib Require Import Ascii.

(** ** Order views and statistics ([src/routes/orders.js], [src/server.js]) *)

Module OrderViews.
Import Orders.

(** [GET /orders/:orderNumber] behind [optionalAuth]: [userId] is the
    user the middleware attached, if any.  The check is
    [order.user && req.userId && order.user.toString () !==
    req.userId.toString ()].  The payload is the stored order; the
    [populate] of the route, which fills the product of each line in
    with its title, slug and images, is left out. *)
Definition getOrder (userId : option ObjectId) (orderNumber : string)
    (db : Db) : Response Order :=
  match findByOrderNumber orderNumber (orders db) with
  | None => json_error 404 "Order not found"
  | Some (_, order) =>
      match o_user order, userId with
      | Some owner, Some requester =>
          if negb (bool_decide (owner = requester))
          then json_error 403 "Unauthorized access"
          else mkResponse 200 true None None None (Some order)
      | _, _ => mkResponse 200 true None None None (Some order)
      end
  end.

(** The revenue of [GET /api/admin/stats]:
    [$match: { paymentStatus: 'paid' }], [$group: { total: { $sum:
    '$total' } }], then [revenueResult[0]?.total || 0]. *)
Definition totalRevenue (db : Db) : Z :=
  match filter (λ o, o_paymentStatus o = "paid") (orders db) with
  | [] => 0
  | paid => or_num (Some (foldr Z.add 0 (o_total <$> paid))) 0
  end.

(** [Order.countDocuments ({ status: 'pending' })]. *)
Definition pendingOrders (db : Db) : Z :=
  Z.of_nat (length (filter (λ o, o_status o = "pending") (orders db))).

(** *** Vocabulary *)

(** What an order counts for in the revenue. *)
Definition paid_total (o : Order) : Z :=
  if bool_decide (o_paymentStatus o = "paid") then o_total o else 0.

(** What a later request may do to a stored order: it keeps its
    identity, customer, lines and pricing, and its timeline only grows
    at the end. *)
Definition evolves (o o' : Order) : Prop :=
  o_id o' = o_id o
  ∧ o_orderNumber o' = o_orderNumber o
  ∧ o_user o' = o_user o
  ∧ o_customer o' = o_customer o
  ∧ o_shippingAddress o' = o_shippingAddress o
  ∧ o_items o' = o_items o
  ∧ pricing o' = pricing o
  ∧ o_paymentMethod o' = o_paymentMethod o
  ∧ o_timeline o `prefix_of` o_timeline o'.


(** The status fields agree with the enumerations and with the
    timeline. *)
Definition coherent (o : Order) : Prop :=
  o_status o ∈ validStatuses
  ∧ o_paymentStatus o ∈ paymentStatuses
  ∧ tl_status <$> last (o_timeline o) = Some (o_status o).

End OrderViews.

(** ** Phone numbers ([src/utils/helpers.js]) *)

Module Phone.

(** [\d]: an ASCII digit. *)
Definition is_digit (c : ascii) : bool :=
  (48 <=? Ascii.nat_of_ascii c)%nat && (Ascii.nat_of_ascii c <=? 57)%nat.

(** [[3-9]]. *)
Definition is_3_to_9 (c : ascii) : bool :=
  (51 <=? Ascii.nat_of_ascii c)%nat && (Ascii.nat_of_ascii c <=? 57)%nat.

(** [phone.replace (/\D/g, '')]. *)
Fixpoint remove_non_digits (s : string) : string :=
  match s with
  | EmptyString => EmptyString
  | String c rest =>
      if is_digit c then String c (remove_non_digits rest)
      else remove_non_digits rest
  end.

(** [if (phone.startsWith ('88')) phone = phone.substring (2)]. *)
Definition strip_88 (s : string) : string :=
  match s with
  | String c1 (String c2 rest) =>
      if Ascii.eqb c1 "8"%char && Ascii.eqb c2 "8"%char then rest else s
  | _ => s
  end.

Definition sanitizePhone (phone : string) : string :=
  strip_88 (remove_non_digits phone).

Fixpoint all_digits (s : string) : bool :=
  match s with
  | EmptyString => true
  | String c rest => is_digit c && all_digits rest
  end.

(** [01[3-9]\d{8}$] from the start of [s]. *)
Definition local_number (s : string) : bool :=
  match s with
  | String c0 (String c1 (String c2 rest)) =>
      Ascii.eqb c0 "0"%char && Ascii.eqb c1 "1"%char && is_3_to_9 c2
      && (String.length rest =? 8)%nat && all_digits rest
  | _ => false
  end.

(** [/^(\+88)?01[3-9]\d{8}$/.test (phone)].  A string that begins with
    [+88] cannot match with the optional group skipped, so the group is
    taken when it is there. *)
Definition isValidPhone (phone : string) : bool :=
  match phone with
  | String c0 (String c1 (String c2 rest)) =>
      if Ascii.eqb c0 "+" && Ascii.eqb c1 "8"%char && Ascii.eqb c2 "8"%char
      then local_number rest
      else local_number phone
  | _ => false
  end.

End Phone.

(** ** Users and the OTP routes ([src/models/index.js], [src/routes/auth.js]) *)

Record Address := mkAddress {
  a_id : ObjectId;
  a_label : option string;
  a_fullName : option string;
  a_phone : option string;
  a_region : option string;
  a_city : option string;
  a_area : option string;
  a_address : option string;
  a_isDefault : bool
}.

Record User := mkUser {
  u_id : ObjectId;
  u_name : string;
  u_email : string;
  u_phone : string;
  u_password : string;
  u_phoneVerified : bool;
  u_emailVerified : bool;
  u_role : string;
  u_addresses : list Address;
  u_wishlist : list ObjectId;
  u_lastLogin : option Z
}.

Module AuthRoutes.
Import Otp Phone.

Record AuthDb := mkAuthDb {
  users : list User;
  otps : list OtpDoc
}.

(** What [POST /auth/send-otp] sends back on success: the sanitized
    phone and, in development only, the code. *)
Record OtpSent := mkOtpSent {
  sent_phone : string;
  sent_otp : option string
}.

(** [POST /auth/send-otp], after the rate limiter.  [development] is
    [process.env.NODE_ENV === 'development'], [code] what [generateOTP]
    draws.  [sendOTPSMS] only logs. *)
Definition sendOtp (development : bool) (now : Z) (code : string)
    (phone purpose : option string) (db : AuthDb)
    : Response OtpSent * AuthDb :=
  if negb (truthy_str phone) || negb (truthy_str purpose)
  then (json_error 400 "Phone number and purpose are required", db)
  else
    let sanitized := sanitizePhone (default EmptyString phone) in
    let pu := default EmptyString purpose in
    if negb (isValidPhone sanitized)
    then (json_error 400 "Invalid phone number format", db)
    else
      let existingUser :=
        list_find (λ u, u_phone u = sanitized) (users db) in
      if bool_decide (pu = "signup") && bool_decide (is_Some existingUser)
      then (json_error 400
              "Phone number already registered. Please login instead.",
            db)
      else if (bool_decide (pu = "login") || bool_decide (pu = "reset"))
              && negb (bool_decide (is_Some existingUser))
      then (json_error 404
              "Phone number not registered. Please signup first.",
            db)
      else
        match saveOTP now code sanitized pu (otps db) with
        | (Some otp, docs) =>
            (mkResponse 200 true None (Some "OTP sent successfully") None
               (Some (mkOtpSent sanitized
                        (if development then Some otp else None))),
             mkAuthDb (users db) docs)
        | (None, docs) =>
            (json_error 500 "Failed to send OTP",
             mkAuthDb (users db) docs)
        end.

(** [POST /auth/verify-otp]; a failure of [verifyOTP] is sent back as it
    is, with status 400. *)
Definition verifyOtp (now : Z) (phone otp purpose : option string)
    (db : AuthDb) : Response unit * AuthDb :=
  if negb (truthy_str phone) || negb (truthy_str otp)
     || negb (truthy_str purpose)
  then (json_error 400 "Phone, OTP, and purpose are required", db)
  else
    let sanitized := sanitizePhone (default EmptyString phone) in
    let '(result, docs) :=
      verifyOTP now sanitized (default EmptyString otp)
                (default EmptyString purpose) (otps db) in
    if negb (success result)
    then (mkResponse 400 false (error result) None None None,
          mkAuthDb (users db) docs)
    else (mkResponse 200 true None (Some "OTP verified successfully")
                     None None,
          mkAuthDb (users db) docs).

End AuthRoutes.

(** ** Authentication middleware ([src/middleware/auth.js]) *)

Module AuthMiddleware.

(** What [jwt.verify (token, process.env.JWT_SECRET)] does: it returns
    the payload, of which the middleware reads [userId], or throws an
    error, of which the middleware reads [name]. *)
Inductive JwtResult :=
| Decoded (userId : ObjectId)
| JsonWebTokenError
| TokenExpiredError
| OtherError.

(** [pat] at the start of [s]: the rest of [s] behind it. *)
Fixpoint strip_prefix (pat s : string) : option string :=
  match pat with
  | EmptyString => Some s
  | String a pat' =>
      match s with
      | String b s' => if Ascii.eqb a b then strip_prefix pat' s' else None
      | EmptyString => None
      end
  end.

(** [s.replace (pat, '')] for a string [pat]: the first occurrence of
    [pat] is removed. *)
Fixpoint replace_first (pat s : string) : string :=
  match strip_prefix pat s with
  | Some rest => rest
  | None =>
      match s with
      | String c s' => String c (replace_first pat s')
      | EmptyString => EmptyString
      end
  end.

(** [req.headers.authorization?.replace ('Bearer ', '')]. *)
Definition extractToken (authorization : option string) : option string :=
  replace_first "Bearer " <$> authorization.

(** [.select ('-password')]: the document is loaded without its
    password, which is written as the empty string here. *)
Definition without_password (u : User) : User :=
  mkUser (u_id u) (u_name u) (u_email u) (u_phone u) EmptyString
         (u_phoneVerified u) (u_emailVerified u) (u_role u)
         (u_addresses u) (u_wishlist u) (u_lastLogin u).

Definition User_findById (userId : ObjectId) (users : list User)
    : option User :=
  without_password <$> (snd <$> list_find (λ u, u_id u = userId) users).

Section Middleware.
Variable jwt_verify : string → JwtResult.

(** [authenticate]: the answer it sends, or the user it attaches as
    [req.user] (and [req.userId]) before it calls [next ()]. *)
Definition authenticate (authorization : option string)
    (users : list User) : Response unit + User :=
  if negb (truthy_str (extractToken authorization))
  then inl (json_error 401 "Authentication required. Please login.")
  else
    match jwt_verify (default EmptyString (extractToken authorization))
    with
    | Decoded userId =>
        match User_findById userId users with
        | None =>
            inl (json_error 401 "User not found. Please login again.")
        | Some user => inr user
        end
    | JsonWebTokenError =>
        inl (json_error 401 "Invalid token. Please login again.")
    | TokenExpiredError =>
        inl (json_error 401 "Token expired. Please login again.")
    | OtherError => inl (json_error 500 "Authentication failed.")
    end.

(** [optionalAuth]: it always calls [next ()], with the user it
    attaches, if any. *)
Definition optionalAuth (authorization : option string)
    (users : list User) : option User :=
  if truthy_str (extractToken authorization)
  then
    match jwt_verify (default EmptyString (extractToken authorization))
    with
    | Decoded userId => User_findById userId users
    | _ => None
    end
  else None.

(** [adminOnly] on the [req.user] it finds: the answer it sends, or
    [None] when it calls [next ()]. *)
Definition adminOnly (user : option User) : option (Response unit) :=
  match user with
  | None => Some (json_error 401 "Authentication required.")
  | Some u =>
      if negb (bool_decide (u_role u = "admin"))
      then Some (json_error 403 "Admin access required.")
      else None
  end.

(** A route declared with [authenticate, adminOnly]: the answer of the
    two, or the administrator the handler runs for. *)
Definition adminRoute (authorization : option string)
    (users : list User) : Response unit + User :=
  match authenticate authorization users with
  | inl res => inl res
  | inr user =>
      match adminOnly (Some user) with
      | Some res => inl res
      | None => inr user
      end
  end.

End Middleware.

(** No space in [s]. *)
Fixpoint no_space (s : string) : bool :=
  match s with
  | EmptyString => true
  | String c rest => negb (Ascii.eqb c " "%char) && no_space rest
  end.

End AuthMiddleware.

(** ** Pagination ([src/utils/helpers.js]) *)

Module Pagination.

(** A number that may be infinite or [NaN]. *)
Inductive JsNum :=
| Num (z : Z)
| Infinity
| NegInfinity
| NaN.

Record PaginationData := mkPaginationData {
  currentPage : Z;
  itemsPerPage : Z;
  totalPages : JsNum;
  totalItems : Z;
  skip : Z;
  hasMore : bool;
  hasPrevious : bool
}.

(** [Math.ceil (total / itemsPerPage)] on integers; a division by zero
    gives an infinity, or [NaN] for [0 / 0]. *)
Definition ceil_div (total itemsPerPage : Z) : JsNum :=
  if itemsPerPage =? 0
  then if total =? 0 then NaN
       else if 0 <? total then Infinity else NegInfinity
  else Num (Math_ceil (inject_Z total / inject_Z itemsPerPage)).

(** [a < b]. *)
Definition lt_num (a : Z) (b : JsNum) : bool :=
  match b with
  | Num z => a <? z
  | Infinity => true
  | NegInfinity | NaN => false
  end.

(** [getPaginationData (page, limit, total)]; [currentPage] and
    [itemsPerPage] are the integers that [parseInt] reads from [page]
    and [limit], [total] is a count of documents. *)
Definition getPaginationData (currentPage itemsPerPage total : Z)
    : PaginationData :=
  let totalPages := ceil_div total itemsPerPage in
  let skip := (currentPage - 1) * itemsPerPage in
  mkPaginationData currentPage itemsPerPage totalPages total skip
                   (lt_num currentPage totalPages) (1 <? currentPage).

End Pagination.

(** ** Sequences of review requests ([src/unnamed/part_000]) *)

Module ReviewRuns.
Import Reviews.

Inductive Op :=
| CreateReview (newId userId : ObjectId) (req : CreateReviewReq)
| ModerateReview (now : Z) (reviewId : ObjectId) (status : string)
                 (adminResponse : option string).

Definition step (op : Op) (db : Db) : Db :=
  match op with
  | CreateReview newId userId req => (createReview newId userId req db).2
  | ModerateReview now reviewId status adminResponse =>
      (moderateReview now reviewId status adminResponse db).2
  end.

Definition run (ops : list Op) (db : Db) : Db :=
  fold_left (λ db op, step op db) ops db.

(** *** Vocabulary *)

Definition reviewStatuses : list string :=
  ["pending"; "approved"; "rejected"].

(** The reviews agree with the schema, and no user has two reviews of
    one product. *)
Definition review_store_ok (rs : list Review) : Prop :=
  NoDup ((λ r, (r_product r, r_user r)) <$> rs)
  ∧ Forall (λ r, 1 <= r_rating r <= 5 ∧ r_status r ∈ reviewStatuses) rs.

(** What review requests may do to a product: they set its rating and
    review count, either to what they were or to a rating from 1 to 5
    with a count of at least 1, and nothing else. *)
Definition rated_from (p p' : Product) : Prop :=
  ∃ r c,
    p' = set_rating r c p
    ∧ ((r = p_rating p ∧ c = p_reviewCount p)
       ∨ ((1 <= r)%Q ∧ (r <= 5)%Q ∧ 1 <= c)).

(** A request that approves no review. *)
Definition not_approval (op : Op) : Prop :=
  match op with
  | ModerateReview _ _ status _ => status ≠ "approved"
  | CreateReview _ _ _ => True
  end.

End ReviewRuns.

(** ** A product whose only approved review has been rejected *)

Module ReviewScenario.
Import Reviews ReviewRuns.

Definition db_rejected : Db :=
  let db1 := (moderateReview 1000 "r1" "approved" None
                Scenario.db_two_pending).2 in
  (moderateReview 2000 "r1" "rejected" None db1).2.

Definition later_requests : list Op :=
  [CreateReview "r3" "u3" (Scenario.review_of "p1" 2);
   ModerateReview 3000 "r3" "rejected" None].

Definition two_approvals : list Op :=
  [CreateReview "r1" "u1" (Scenario.review_of "p1" 5);
   CreateReview "r2" "u2" (Scenario.review_of "p1" 4);
   ModerateReview 1000 "r1" "approved" None;
   ModerateReview 2000 "r2" "approved" None].

End ReviewScenario.

(** ** A registered user *)

Module AuthScenario.
Import AuthRoutes.

Definition rahim : User :=
  mkUser "u1" "Rahim" "rahim@example.com" "01712345678" "hash" true false
         "customer" [] [] None.

Definition db_rahim : AuthDb := mkAuthDb [rahim] [].

Definition karim : User :=
  mkUser "u2" "Karim" "karim@example.com" "01812345678" "hash" true false
         "admin" [] [] None.

Definition db_admin : AuthDb := mkAuthDb [rahim; karim] [].

(** A verifier that accepts two tokens. *)
Definition jwt_verify (token : string) : AuthMiddleware.JwtResult :=
  if bool_decide (token = "token-of-rahim") then AuthMiddleware.Decoded "u1"
  else if bool_decide (token = "token-of-karim")
  then AuthMiddleware.Decoded "u2"
  else AuthMiddleware.JsonWebTokenError.

End AuthScenario.

(** * Properties *)

(** ** Shipping *)

Section ShippingFacts.
Import Orders.

Lemma base_rate_table region :
  or_num (Shipping.shippingRates !! region) 100
  = Shipping.spec_base_rate region.
Proof.
  unfold Shipping.spec_base_rate, Shipping.shippingRates.
  repeat (case_bool_decide; [ subst region; vm_compute; reflexivity | ]).
  cbn [list_to_map foldr fst snd uncurry].
  rewrite !lookup_insert_ne by congruence.
  rewrite lookup_empty. reflexivity.
Qed.

Lemma listed_region_not_inherited region z :
  Shipping.shippingRates !! region = Some z →
  region ∉ Shipping.Object_prototype_names.
Proof.
  intros Hz Hin. unfold Shipping.Object_prototype_names in Hin.
  rewrite !elem_of_cons in Hin.
  repeat (destruct Hin as [->|Hin];
          [vm_compute in Hz; discriminate|]).
  by apply elem_of_nil in Hin.
Qed.

(** [calculateShipping] on every region: the string for a name
    inherited from [Object.prototype], the rate of the table plus the
    surcharge otherwise. *)
Lemma calculateShipping_cases region itemCount :
  Shipping.calculateShipping region itemCount
  = if bool_decide (region ∈ Shipping.Object_prototype_names)
    then Shipping.MemberThenFee region (Shipping.spec_surcharge itemCount)
    else Shipping.Cost (Shipping.spec_base_rate region
                        + Shipping.spec_surcharge itemCount).
Proof.
  unfold Shipping.calculateShipping, Shipping.get, Shipping.spec_surcharge.
  rewrite <- base_rate_table.
  destruct (Shipping.shippingRates !! region) as [z|] eqn:Hz.
  - by rewrite bool_decide_eq_false_2
      by (by eapply listed_region_not_inherited).
  - by case_bool_decide.
Qed.

Lemma fold_left_quantity items acc :
  fold_left (λ sum item, sum + quantity item) items acc
  = acc + spec_totalItemCount items.
Proof.
  unfold spec_totalItemCount. revert acc.
  induction items as [|i items IH]; intros acc; cbn.
  - lia.
  - rewrite IH. lia.
Qed.

Lemma totalItemCount_sum items :
  totalItemCount items = spec_totalItemCount items.
Proof. unfold totalItemCount. rewrite fold_left_quantity. lia. Qed.

End ShippingFacts.

(** ** Order workflow *)

Section OrderFacts.
Import Orders.
Implicit Types (ps : gmap ObjectId Product) (items : list ItemReq).
Implicit Types (db : Db) (os : list Order).

(** *** The first loop *)

(** The loop stops at the first line item that step 2 refuses. *)
Lemma priceItems_bad ps items subtotal acc item :
  item ∈ items → badItem ps item →
  ∃ pre bad post,
    items = pre ++ bad :: post
    ∧ Forall (λ it, ¬ badItem ps it) pre
    ∧ badItem ps bad
    ∧ priceItems ps items subtotal acc
      = inl (match ps !! productId bad with
             | None =>
                 json_error 404
                   ("Product not found: " +:+ productId bad)
             | Some product =>
                 json_error 400
                   ("Insufficient stock for " +:+ p_title product)
             end).
Proof.
  intros Hin Hbad. revert subtotal acc.
  induction items as [|it rest IH]; intros subtotal acc.
  - by apply elem_of_nil in Hin.
  - cbn [priceItems]. unfold badItem in *.
    destruct (ps !! productId it) as [product|] eqn:Hlook.
    + destruct (p_stock product <? quantity it) eqn:Hlt.
      * exists [], it, rest. rewrite Hlook.
        split_and!; [done | constructor | lia | done].
      * apply elem_of_cons in Hin as [->|Hin].
        { rewrite Hlook in Hbad. lia. }
        destruct (IH Hin (subtotal + p_price product * quantity it)
                     (acc ++ [mkOrderItem (productId it) (p_title product)
                                (p_slug product) (head (p_images product))
                                (p_price product) (quantity it) (variant it)
                                (p_price product * quantity it)]))
          as (pre & bad & post & -> & Hpre & Hb & ->).
        exists (it :: pre), bad, post.
        split_and!; [done | | done | done].
        constructor; [|done]. rewrite Hlook. lia.
    + exists [], it, rest. rewrite Hlook.
      split_and!; [done | constructor | done | done].
Qed.

Lemma priceItems_ok ps items subtotal acc subtotal' orderItems :
  priceItems ps items subtotal acc = inr (subtotal', orderItems) →
  subtotal' = subtotal + spec_subtotal ps items
  ∧ Forall (λ item, ¬ badItem ps item) items.
Proof.
  revert subtotal acc.
  induction items as [|it rest IH]; intros subtotal acc; cbn [priceItems].
  - intros [= <- <-]. unfold spec_subtotal. cbn. split; [lia | constructor].
  - destruct (ps !! productId it) as [product|] eqn:Hlook; [|done].
    destruct (p_stock product <? quantity it) eqn:Hlt; [done|].
    intros Hrec. apply IH in Hrec as [-> Hall]. split.
    + unfold spec_subtotal, livePrice. cbn. rewrite Hlook. cbn. lia.
    + constructor; [|done]. unfold badItem. rewrite Hlook. lia.
Qed.



(** *** [Order.create] on the document of the handler *)

(** A document without order number does not pass the validation. *)
Lemma orderSchema_validate_no_number o :
  o_orderNumber o = EmptyString → orderSchema_validate o = false.
Proof. intros Hn. unfold orderSchema_validate. by rewrite Hn. Qed.

Lemma orderDocument_no_number env req customer address pm subtotal
    orderItems shippingCost estimatedDelivery o :
  orderDocument env req customer address pm subtotal orderItems
                shippingCost estimatedDelivery = Some o →
  o_orderNumber o = EmptyString.
Proof.
  unfold orderDocument.
  destruct shippingCost; [|done].
  destruct estimatedDelivery; [|done].
  by intros [= <-].
Qed.

(** So the handler's call of [Order.create] throws, whatever the
    request is. *)
Lemma Order_create_document env req customer address pm subtotal
    orderItems shippingCost estimatedDelivery os :
  orderDocument env req customer address pm subtotal orderItems
                shippingCost estimatedDelivery
  ≫= (λ order, Order_create env order os) = None.
Proof.
  destruct (orderDocument _ _ _ _ _ _ _ _ _) as [o|] eqn:Hdoc; [|done].
  cbn. unfold Order_create.
  by rewrite (orderSchema_validate_no_number o)
    by (by eapply orderDocument_no_number).
Qed.

(** No create-order request changes the store or is answered with an
    order. *)
Lemma createOrder_store env req db :
  (createOrder env req db).2 = db.
Proof.
  unfold createOrder.
  destruct (requiredFields req) as [[[[customer address] items] pm]|];
    [|done].
  destruct (priceItems _ _ _ _) as [res|[subtotal orderItems]]; [done|].
  by rewrite Order_create_document.
Qed.



Lemma step_CreateOrder env req db : step (CreateOrder env req) db = db.
Proof. apply createOrder_store. Qed.

(** *** Later requests keep the pricing fields *)

Lemma pricing_Order_with o a b c d e f g h :
  pricing (Order_with o a b c d e f g h) = pricing o.
Proof. reflexivity. Qed.










End OrderFacts.

Section OrderClaims.
Import Orders.
Implicit Types (db : Db) (items : list ItemReq).

Lemma requiredFields_Some req customer address items pm :
  requiredFields req = Some (customer, address, items, pm) →
  rq_customer req = Some customer
  ∧ rq_shippingAddress req = Some address
  ∧ rq_items req = Some items
  ∧ rq_paymentMethod req = Some pm
  ∧ items ≠ [] ∧ pm ≠ EmptyString.
Proof.
  unfold requiredFields, required.
  destruct (rq_customer req), (rq_shippingAddress req), (rq_items req),
    (rq_paymentMethod req); try done.
  repeat case_bool_decide; cbn; try done.
  by intros [= <- <- <- <-].
Qed.

(** C7.  [calculateShipping] is the base rate of the region in the
    flat-rate table (Dhaka 60, Chittagong 100, Sylhet 120, Rajshahi 120,
    Khulna 120, Barisal 130, Rangpur 130, Mymensingh 100; 100 for a
    region that is not listed) plus [max (0, count - 3) * 20] for every
    region except the names that the table inherits from
    [Object.prototype]: for those, [shippingRates[region]] is a function
    or an object, the fallback [|| 100] is not taken and the result is a
    string, not a number.  So for the region [constructor], which is not
    in the table, the cost is not 100.  The count that the order route
    passes is the sum of the requested quantities. *)
Theorem calculateShipping_inherited_region_no_fallback :
  (∀ region totalItemCount,
     region ∉ Shipping.Object_prototype_names →
     Shipping.calculateShipping region totalItemCount
     = Shipping.Cost (Shipping.spec_base_rate region
                      + Z.max 0 (totalItemCount - 3) * 20))
  ∧ (∀ region totalItemCount,
       region ∈ Shipping.Object_prototype_names →
       Shipping.calculateShipping region totalItemCount
       = Shipping.MemberThenFee region (Z.max 0 (totalItemCount - 3) * 20))
  ∧ Shipping.shippingRates !! "constructor" = None
  ∧ Shipping.calculateShipping "constructor" 1
    = Shipping.MemberThenFee "constructor" 0
  ∧ Shipping.calculateShipping "constructor" 1
    ≠ Shipping.Cost (Shipping.spec_base_rate "constructor"
                     + Z.max 0 (1 - 3) * 20)
  ∧ (∀ items, totalItemCount items = spec_totalItemCount items).
Proof.
  split_and!.
  - intros region n Hout. rewrite calculateShipping_cases.
    by rewrite bool_decide_eq_false_2.
  - intros region n Hin. rewrite calculateShipping_cases.
    by rewrite bool_decide_eq_true_2.
  - vm_compute. reflexivity.
  - vm_compute. reflexivity.
  - vm_compute. discriminate.
  - apply totalItemCount_sum.
Qed.

(** C2.  A create-order request with a line item whose product is
    missing, or whose quantity is greater than the product's stock, is
    answered with an error and the store is the one before the request:
    no order is added and the products (stock and salesCount with them)
    are untouched.  When the required fields are present the error is
    the one of the first such line: 404 "Product not found: <id>" or 400
    "Insufficient stock for <title>"; otherwise it is the 400 of
    step 1. *)
Theorem createOrder_rejects_bad_item env req db items item :
  rq_items req = Some items →
  item ∈ items →
  badItem (products db) item →
  ∃ res,
    createOrder env req db = (res, db)
    ∧ res_success res = false
    ∧ res_payload res = None
    ∧ (requiredFields req = None →
       res = json_error 400 "Missing required fields")
    ∧ (is_Some (requiredFields req) →
       ∃ pre bad post,
         items = pre ++ bad :: post
         ∧ Forall (λ it, ¬ badItem (products db) it) pre
         ∧ match products db !! productId bad with
           | None =>
               res = json_error 404
                       ("Product not found: " +:+ productId bad)
           | Some product =>
               p_stock product < quantity bad
               ∧ res = json_error 400
                         ("Insufficient stock for " +:+ p_title product)
           end).
Proof.
  intros Hitems Hin Hbad. unfold createOrder.
  destruct (requiredFields req) as [[[[customer address] items'] pm]|]
    eqn:Hreq.
  - apply requiredFields_Some in Hreq as (_ & _ & Hitems' & _).
    assert (items' = items) as -> by congruence.
    destruct (priceItems_bad (products db) items 0 [] item Hin Hbad)
      as (pre & bad & post & Hsplit & Hpre & Hb & ->).
    eexists. split; [reflexivity|].
    split_and!.
    + by destruct (products db !! productId bad).
    + by destruct (products db !! productId bad).
    + done.
    + intros _. exists pre, bad, post. split_and!; [done..|].
      unfold badItem in Hb.
      by destruct (products db !! productId bad).
  - eexists. split; [reflexivity|]. split_and!; try done.
Qed.

Lemma createOrder_rejects_bad_item_witness :
  ∃ res,
    createOrder Scenario.env1 Scenario.req_six Scenario.db_widget
    = (res, Scenario.db_widget)
    ∧ res_error res = Some "Insufficient stock for Widget".
Proof.
  assert (mkItemReq "p1" 6 None ∈ [mkItemReq "p1" 6 None]) as Hin
    by (apply list_elem_of_singleton; reflexivity).
  assert (badItem (products Scenario.db_widget) (mkItemReq "p1" 6 None))
    as Hbad by (vm_compute; reflexivity).
  destruct (createOrder_rejects_bad_item Scenario.env1 Scenario.req_six
              Scenario.db_widget [mkItemReq "p1" 6 None]
              (mkItemReq "p1" 6 None) eq_refl Hin Hbad)
    as (res & Hrun & _).
  exists res. split; [exact Hrun|].
  apply (f_equal fst) in Hrun. cbn in Hrun. rewrite <- Hrun.
  vm_compute. reflexivity.
Defined.



(** C9.  For every order that the order number designates and any
    submitted transaction id, sender number and amount, the payment
    verification answers 200 and stores the order with
    [paymentStatus = "paid"] and the payment details as submitted: the
    amount is not compared with the order's total, and the
    [paymentStatus] before is not looked at. *)
Theorem verifyPayment_marks_paid_unconditionally
    now adminId n transactionId senderNumber amount db i order :
  findByOrderNumber n (orders db) = Some (i, order) →
  ∃ order',
    verifyPayment now adminId n transactionId senderNumber amount db
    = (json_ok 200 "Payment verified successfully" (Some order'),
       mkDb (products db) (<[i := order']> (orders db)) (reviews db))
    ∧ o_paymentStatus order' = "paid"
    ∧ o_paymentDetails order'
      = Some (mkPaymentDetails transactionId senderNumber amount
                               adminId now)
    ∧ findByOrderNumber n (<[i := order']> (orders db))
      = Some (i, order')
    ∧ o_total order' = o_total order
    ∧ o_status order' = o_status order.
Proof.
  intros Hfind. unfold verifyPayment. rewrite Hfind.
  eexists. split; [reflexivity|]. split_and!; try reflexivity.
  unfold findByOrderNumber in *.
  apply list_find_Some in Hfind as (Hi & Hn & Hfirst).
  apply list_find_Some. split_and!.
  - apply list_lookup_insert_eq. by eapply lookup_lt_Some.
  - done.
  - intros j y Hj Hlt.
    rewrite list_lookup_insert_ne in Hj by lia. by eapply Hfirst.
Qed.

Lemma verifyPayment_marks_paid_unconditionally_witness :
  ∃ i order,
    findByOrderNumber "TUA-00000000-ABCDE" (orders Scenario.db_ordered)
    = Some (i, order)
    ∧ o_total order = 560
    ∧ ∃ order',
        (verifyPayment 1700000001000 "admin" "TUA-00000000-ABCDE"
           (Some "TX1") (Some "01700000000") (Some 1)
           Scenario.db_ordered).1
        = json_ok 200 "Payment verified successfully" (Some order')
        ∧ o_paymentStatus order' = "paid".
Proof.
  destruct (findByOrderNumber "TUA-00000000-ABCDE"
              (orders Scenario.db_ordered)) as [[i order]|] eqn:Hfind;
    [|vm_compute in Hfind; discriminate].
  exists i, order. split; [reflexivity|]. split.
  { vm_compute in Hfind. injection Hfind as _ <-. reflexivity. }
  destruct (verifyPayment_marks_paid_unconditionally 1700000001000
              "admin" "TUA-00000000-ABCDE" (Some "TX1")
              (Some "01700000000") (Some 1) Scenario.db_ordered i order
              Hfind) as (order' & Hrun & Hpaid & _).
  exists order'. rewrite Hrun. split; [reflexivity | exact Hpaid].
Defined.



End OrderClaims.

(** ** OTP service *)

Section OtpFacts.
Import Otp.
Implicit Types (docs : list OtpDoc) (d : OtpDoc).

Lemma Forall_filter_keep {A} (P Q : A → Prop) `{!∀ x, Decision (Q x)}
    (l : list A) :
  Forall P l → Forall P (filter Q l).
Proof.
  rewrite !Forall_forall. intros Hall x [_ Hx]%list_elem_of_filter. auto.
Qed.

(** *** A verify call that finds no row *)

Lemma verifyOTP_not_found now ph code pu docs :
  list_find (matches now ph code pu) docs = None →
  verifyOTP now ph code pu docs = (invalid_or_expired, docs).
Proof. unfold verifyOTP. by intros ->. Qed.

(** A call with a code that no row of the phone and purpose carries finds
    no row: it answers "Invalid or expired OTP" and writes nothing, the
    attempts counter included. *)
Lemma verifyOTP_wrong_code now ph code pu docs :
  Forall (λ d, phone d = ph → purpose d = pu → otp d ≠ code) docs →
  verifyOTP now ph code pu docs = (invalid_or_expired, docs).
Proof.
  intros Hall. apply verifyOTP_not_found, list_find_None.
  eapply Forall_impl; [exact Hall|].
  intros d Hd (Hph & Hcode & Hpu & _). by apply Hd.
Qed.

Lemma verifyOTP_consumed now ph code pu docs :
  consumed ph pu docs →
  verifyOTP now ph code pu docs = (invalid_or_expired, docs).
Proof.
  intros Hall. apply verifyOTP_not_found, list_find_None.
  eapply Forall_impl; [exact Hall|].
  intros d Hd (Hph & _ & Hpu & Hv & _). rewrite Hd in Hv; done.
Qed.

(** *** Invariants of the collection *)

Lemma saveOTP_docs now code ph pu docs :
  (saveOTP now code ph pu docs).2 = OTP_deleteMany ph pu docs
  ∨ (saveOTP now code ph pu docs).2
    = OTP_deleteMany ph pu docs
      ++ [mkOtpDoc ph code pu (now + 5 * 60 * 1000) false 0].
Proof.
  unfold saveOTP, OTP_create.
  destruct (_ && _); cbn; [by right | by left].
Qed.

Lemma fresh_attempts_step op docs :
  fresh_attempts docs → fresh_attempts (step op docs).
Proof.
  unfold fresh_attempts. intros Hall. destruct op as [now code ph pu|now ph code pu|now];
    cbn [step].
  - destruct (saveOTP_docs now code ph pu docs) as [-> | ->].
    + by apply Forall_filter_keep.
    + apply Forall_app. split; [by apply Forall_filter_keep|].
      by repeat constructor.
  - unfold verifyOTP.
    destruct (list_find _ _) as [[i d]|]; [|done].
    case_match; cbn.
    + by apply Forall_delete.
    + apply Forall_insert; [done|]. cbn. done.
  - by apply Forall_filter_keep.
Qed.

Lemma fresh_attempts_run ops docs :
  fresh_attempts docs → fresh_attempts (run ops docs).
Proof.
  unfold run. revert docs. induction ops as [|op ops IH]; intros docs H;
    cbn; [done|]. by apply IH, fresh_attempts_step.
Qed.

Lemma one_per_key_sublist docs docs' :
  docs' `sublist_of` docs → one_per_key docs → one_per_key docs'.
Proof.
  unfold one_per_key. intros Hsub Hnd.
  eapply sublist_NoDup; [exact Hnd|]. by apply fmap_sublist.
Qed.

Lemma one_per_key_step op docs :
  one_per_key docs → one_per_key (step op docs).
Proof.
  intros Hnd. destruct op as [now code ph pu|now ph code pu|now];
    cbn [step].
  - assert (one_per_key (OTP_deleteMany ph pu docs)) as Hdel.
    { eapply one_per_key_sublist; [|done]. apply sublist_filter. }
    destruct (saveOTP_docs now code ph pu docs) as [-> | ->]; [done|].
    unfold one_per_key in *. rewrite fmap_app. apply NoDup_app.
    split_and!; [done | | apply NoDup_singleton].
    intros key Hkey Hnew. cbn in Hnew.
    apply list_elem_of_singleton in Hnew as ->.
    apply list_elem_of_fmap in Hkey as (d & Hk & Hd).
    unfold OTP_deleteMany in Hd.
    apply list_elem_of_filter in Hd as [Hne _].
    injection Hk as Hph Hpu. by apply Hne.
  - unfold verifyOTP.
    destruct (list_find _ _) as [[i d]|] eqn:Hfind; [|done].
    apply list_find_Some in Hfind as (Hi & _ & _).
    case_match; cbn.
    + eapply one_per_key_sublist; [|done]. apply sublist_delete.
    + unfold one_per_key in *. rewrite list_fmap_insert. cbn.
      rewrite list_insert_id; [done|]. by rewrite list_lookup_fmap, Hi.
  - eapply one_per_key_sublist; [|done]. apply sublist_filter.
Qed.

Lemma one_per_key_run ops docs :
  one_per_key docs → one_per_key (run ops docs).
Proof.
  unfold run. revert docs. induction ops as [|op ops IH]; intros docs H;
    cbn; [done|]. by apply IH, one_per_key_step.
Qed.

Lemma consumed_step ph pu op docs :
  ¬ issues_for ph pu op →
  consumed ph pu docs → consumed ph pu (step op docs).
Proof.
  unfold consumed. intros Hop Hall.
  destruct op as [now code ph' pu'|now ph' code pu'|now]; cbn [step].
  - cbn in Hop.
    destruct (saveOTP_docs now code ph' pu' docs) as [-> | ->].
    + by apply Forall_filter_keep.
    + apply Forall_app. split; [by apply Forall_filter_keep|].
      repeat constructor. cbn. intros -> ->. by destruct Hop.
  - unfold verifyOTP.
    destruct (list_find _ _) as [[i d]|]; [|done].
    case_match; cbn.
    + by apply Forall_delete.
    + apply Forall_insert; [done|]. done.
  - by apply Forall_filter_keep.
Qed.

Lemma consumed_run ph pu ops docs :
  Forall (λ op, ¬ issues_for ph pu op) ops →
  consumed ph pu docs → consumed ph pu (run ops docs).
Proof.
  unfold run. revert docs.
  induction ops as [|op ops IH]; intros docs Hops H; cbn; [done|].
  apply Forall_cons in Hops as [Hop Hops].
  by apply IH, consumed_step.
Qed.

(** A successful call marks the one row of the phone and purpose. *)
Lemma verifyOTP_success_consumed now ph code pu docs :
  one_per_key docs →
  success (verifyOTP now ph code pu docs).1 = true →
  consumed ph pu (verifyOTP now ph code pu docs).2.
Proof.
  intros Hnd. unfold verifyOTP.
  destruct (list_find _ _) as [[i d]|] eqn:Hfind; [|done].
  apply list_find_Some in Hfind as (Hi & (Hph & _ & Hpu & _) & _).
  case_match; cbn; [done|]. intros _.
  unfold consumed. apply Forall_lookup. intros j d' Hj.
  destruct (decide (i = j)) as [<-|Hne].
  - rewrite list_lookup_insert_eq in Hj by by eapply lookup_lt_Some.
    by injection Hj as <-.
  - rewrite list_lookup_insert_ne in Hj by done.
    intros Hph' Hpu'. exfalso. apply Hne.
    unfold one_per_key in Hnd.
    eapply (NoDup_lookup _ i j (ph, pu) Hnd);
      rewrite list_lookup_fmap.
    + by rewrite Hi; cbn; rewrite Hph, Hpu.
    + by rewrite Hj; cbn; rewrite Hph', Hpu'.
Qed.

(** No sequence of calls from the empty collection makes [verifyOTP]
    answer "Too many attempts": the query selects on the code, so a row
    is only found by the code that consumes it, with its counter at 0. *)
Lemma verifyOTP_never_too_many ops now ph code pu :
  (verifyOTP now ph code pu (run ops [])).1 ≠ too_many_attempts.
Proof.
  assert (fresh_attempts (run ops [])) as Hfresh
    by (apply fresh_attempts_run; constructor).
  unfold verifyOTP.
  destruct (list_find _ _) as [[i d]|] eqn:Hfind; [|done].
  apply list_find_Some in Hfind as (Hi & (_ & _ & _ & Hv & _) & _).
  unfold fresh_attempts in Hfresh. rewrite Forall_lookup in Hfresh.
  rewrite (Hfresh _ _ Hi Hv). cbn. done.
Qed.

End OtpFacts.

Section OtpClaims.
Import Otp.

(** C3.  Wrong codes are not counted.  On the collection that holds the
    OTP issued for phone 01712345678, purpose login, code 123456, a
    verify call with code 000000 answers "Invalid or expired OTP" at any
    time and leaves the collection as it is; after four such calls the
    row is still there with [attempts = 0], the fourth call was answered
    "Invalid or expired OTP" like the others, and a fifth call with the
    code 123456 succeeds. *)
Theorem wrong_codes_are_not_counted :
  (∀ now,
     verifyOTP now "01712345678" "000000" "login" Scenario.otp_issued
     = (invalid_or_expired, Scenario.otp_issued))
  ∧ (verifyOTP 4000 "01712345678" "000000" "login"
       (run [Scenario.wrong_code 1000; Scenario.wrong_code 2000;
             Scenario.wrong_code 3000] Scenario.otp_issued)).1
    = invalid_or_expired
  ∧ run [Scenario.wrong_code 1000; Scenario.wrong_code 2000;
         Scenario.wrong_code 3000; Scenario.wrong_code 4000]
        Scenario.otp_issued
    = [mkOtpDoc "01712345678" "123456" "login" 300000 false 0]
  ∧ (verifyOTP 5000 "01712345678" "123456" "login"
       (run [Scenario.wrong_code 1000; Scenario.wrong_code 2000;
             Scenario.wrong_code 3000; Scenario.wrong_code 4000]
            Scenario.otp_issued)).1
    = mkResult true None.
Proof.
  split_and!.
  - intros now. apply verifyOTP_wrong_code.
    vm_compute. repeat constructor. intros _ _. discriminate.
  - vm_compute. reflexivity.
  - vm_compute. reflexivity.
  - vm_compute. reflexivity.
Qed.

(** C4.  An OTP is consumed at most once.  On a collection built by any
    sequence of issue, verify and expiry calls from the empty one, once a
    verify call for a phone, code and purpose has succeeded, a verify
    call with the same phone, code and purpose is answered "Invalid or
    expired OTP" and writes nothing, whatever calls came in between, as
    long as none of them issued a new OTP for that phone and purpose. *)
Theorem otp_consumed_at_most_once ops0 now ph code pu ops now' :
  success (verifyOTP now ph code pu (run ops0 [])).1 = true →
  Forall (λ op, ¬ issues_for ph pu op) ops →
  verifyOTP now' ph code pu
    (run ops (verifyOTP now ph code pu (run ops0 [])).2)
  = (invalid_or_expired,
     run ops (verifyOTP now ph code pu (run ops0 [])).2).
Proof.
  intros Hok Hops. apply verifyOTP_consumed, consumed_run; [done|].
  apply verifyOTP_success_consumed; [|done].
  apply one_per_key_run. constructor.
Qed.

Lemma otp_consumed_at_most_once_witness :
  success (verifyOTP 1000 "01712345678" "123456" "login"
             (run [Issue 0 "123456" "01712345678" "login"] [])).1 = true
  ∧ (verifyOTP 5000 "01712345678" "123456" "login"
       (run [Scenario.wrong_code 2000;
             Issue 3000 "654321" "01812345678" "login";
             Expire 4000]
            (verifyOTP 1000 "01712345678" "123456" "login"
               (run [Issue 0 "123456" "01712345678" "login"] [])).2)).1
    = invalid_or_expired.
Proof.
  split; [vm_compute; reflexivity|].
  rewrite (otp_consumed_at_most_once
             [Issue 0 "123456" "01712345678" "login"]
             1000 "01712345678" "123456" "login"
             [Scenario.wrong_code 2000;
              Issue 3000 "654321" "01812345678" "login";
              Expire 4000] 5000).
  - reflexivity.
  - vm_compute. reflexivity.
  - repeat (constructor; [cbn; intuition discriminate|]). constructor.
Defined.

End OtpClaims.

(** ** Rate limiter *)

Section RateLimitFacts.
Import RateLimit.
Implicit Types (store : gmap string RateData) (opts : Options).

(** [Math.ceil (a / 1000)] on an integer [a]: the least [s] with
    [a <= 1000 * s]. *)
Lemma Math_ceil_ms a :
  1000 * (Math_ceil (inject_Z a / inject_Z 1000) - 1) < a
  ∧ a <= 1000 * Math_ceil (inject_Z a / inject_Z 1000).
Proof.
  unfold Math_ceil, Qceiling, Qfloor, Qdiv, Qmult, Qinv, Qopp, inject_Z.
  cbn. change (Z.pos (1 * 1000)) with 1000. rewrite Z.mul_1_r.
  pose proof (Z.div_mod (- a) 1000) as Hdiv.
  pose proof (Z.mod_pos_bound (- a) 1000) as Hmod. lia.
Qed.

(** The clean-up loop on one key. *)
Lemma cleanup_lookup opts now store k :
  cleanup opts now store !! k
  = match store !! k with
    | Some e =>
        if now - resetTime e >? windowMs opts then None else Some e
    | None => None
    end.
Proof.
  unfold cleanup. rewrite map_lookup_filter.
  destruct (store !! k) as [e|]; cbn; [|done].
  destruct (Z.gtb_spec (now - resetTime e) (windowMs opts)).
  - rewrite option_guard_False; [done|]. cbn. lia.
  - rewrite option_guard_True; [done|]. cbn. lia.
Qed.

(** The entry of the key after the request is the one of the
    fixed-window algorithm. *)
Lemma rateLimit_entry opts key now store :
  (rateLimit opts key now store).2 !! key
  = Some (spec_window opts now (store !! key)).
Proof.
  unfold rateLimit.
  pose proof (cleanup_lookup opts now store key) as Hclean.
  destruct (cleanup opts now store !! key) as [rd|] eqn:Hkey.
  - destruct (store !! key) as [e|]; [|done].
    destruct (now - resetTime e >? windowMs opts) eqn:Hexp; [done|].
    injection Hclean as ->. rewrite Hexp. cbn [spec_window]. rewrite Hexp.
    cbn. destruct (_ >? max opts); cbn; by rewrite lookup_insert_eq.
  - assert (spec_window opts now (store !! key) = mkRateData 1 now) as ->.
    { destruct (store !! key) as [e|]; cbn; [|done].
      by destruct (now - resetTime e >? windowMs opts). }
    cbn. destruct (now - now >? windowMs opts); cbn;
      destruct (_ >? max opts); cbn; by rewrite lookup_insert_eq.
Qed.

(** The answer is decided by the count of that entry. *)
Lemma rateLimit_outcome opts key now store :
  let e := spec_window opts now (store !! key) in
  (rateLimit opts key now store).1
  = if count e >? max opts
    then Rejected
           (mkResponse 429 false (Some (message opts)) None
              (Some (Math_ceil
                       (inject_Z (resetTime e + windowMs opts - now)
                        / inject_Z 1000)))
              None)
    else Next (max opts) (Z.max 0 (max opts - count e))
              (resetTime e + windowMs opts).
Proof.
  unfold rateLimit.
  pose proof (cleanup_lookup opts now store key) as Hclean.
  destruct (cleanup opts now store !! key) as [rd|] eqn:Hkey.
  - destruct (store !! key) as [e|]; [|done].
    destruct (now - resetTime e >? windowMs opts) eqn:Hexp; [done|].
    injection Hclean as ->. rewrite Hexp. cbn [spec_window]. rewrite Hexp.
    cbn. by destruct (_ >? max opts).
  - assert (spec_window opts now (store !! key) = mkRateData 1 now) as ->.
    { destruct (store !! key) as [e|]; cbn; [|done].
      by destruct (now - resetTime e >? windowMs opts). }
    cbn. destruct (now - now >? windowMs opts); cbn;
      by destruct (_ >? max opts).
Qed.

Lemma rateLimit_other opts key now store k :
  k ≠ key →
  (rateLimit opts key now store).2 !! k = cleanup opts now store !! k.
Proof.
  intros Hne. unfold rateLimit.
  destruct (cleanup opts now store !! key) as [rd|]; cbn;
    destruct (_ >? max opts); cbn;
    rewrite ?lookup_insert_ne by done; done.
Qed.

(** *** The counter against the history of requests *)

Lemma requests_since_app key start reqs reqs' :
  requests_since key start (reqs ++ reqs')
  = requests_since key start reqs + requests_since key start reqs'.
Proof.
  unfold requests_since.
  by rewrite filter_app, length_app, Nat2Z.inj_add.
Qed.

Lemma requests_since_none key start reqs :
  Forall (λ r, r.1 = key → r.2 < start) reqs →
  requests_since key start reqs = 0.
Proof.
  unfold requests_since. induction 1 as [|r reqs Hr _ IH]; [done|].
  rewrite filter_cons. destruct (decide _) as [[Hk Hs]|_]; [|done].
  specialize (Hr Hk). lia.
Qed.

Lemma requests_since_one key start now :
  start <= now → requests_since key start [(key, now)] = 1.
Proof.
  intros Hle. unfold requests_since. rewrite filter_cons.
  destruct (decide _) as [_|Hn]; [done|]. exfalso. by apply Hn.
Qed.

Lemma requests_since_other key k start now :
  k ≠ key → requests_since k start [(key, now)] = 0.
Proof.
  intros Hne. unfold requests_since. rewrite filter_cons.
  destruct (decide _) as [[Hk _]|_]; [|done]. cbn in Hk. congruence.
Qed.

Lemma window_inv_later opts reqs T T' store :
  T <= T' → window_inv opts reqs T store → window_inv opts reqs T' store.
Proof.
  intros Hle Hinv k. specialize (Hinv k).
  destruct (store !! k) as [e|].
  - destruct Hinv as (Hc & Hr & Hall). split_and!; [done | lia | done].
  - eapply Forall_impl; [exact Hinv|]. cbn. intros r Hr Hk.
    specialize (Hr Hk). lia.
Qed.

Lemma window_inv_step opts reqs T store key now :
  0 <= windowMs opts →
  T <= now →
  window_inv opts reqs T store →
  window_inv opts (reqs ++ [(key, now)]) now
             (rateLimit opts key now store).2.
Proof.
  intros HW HT Hinv k. specialize (Hinv k).
  destruct (decide (k = key)) as [->|Hne].
  - rewrite rateLimit_entry.
    destruct (store !! key) as [e|]; cbn [spec_window].
    + destruct Hinv as (Hc & Hr & Hall).
      destruct (Z.gtb_spec (now - resetTime e) (windowMs opts)); cbn.
      * rewrite requests_since_app, requests_since_one by lia.
        rewrite requests_since_none.
        2:{ eapply Forall_impl; [exact Hall|]. cbn. intros r Hr' Hk.
            specialize (Hr' Hk). lia. }
        split_and!; [lia | lia |].
        apply Forall_app. split.
        -- eapply Forall_impl; [exact Hall|]. cbn. intros r Hr' Hk.
           specialize (Hr' Hk). lia.
        -- repeat constructor. cbn. lia.
      * rewrite requests_since_app, requests_since_one by lia.
        split_and!; [lia | lia |].
        apply Forall_app. split; [done|].
        repeat constructor. cbn. lia.
    + cbn. rewrite requests_since_app, requests_since_one by lia.
      rewrite requests_since_none.
      2:{ eapply Forall_impl; [exact Hinv|]. cbn. intros r Hr' Hk.
          specialize (Hr' Hk). lia. }
      split_and!; [lia | lia |].
      apply Forall_app. split.
      * eapply Forall_impl; [exact Hinv|]. cbn. intros r Hr' Hk.
        specialize (Hr' Hk). lia.
      * repeat constructor. cbn. lia.
  - rewrite rateLimit_other, cleanup_lookup by done.
    destruct (store !! k) as [e|].
    + destruct Hinv as (Hc & Hr & Hall).
      destruct (Z.gtb_spec (now - resetTime e) (windowMs opts)).
      * apply Forall_app. split.
        -- eapply Forall_impl; [exact Hall|]. cbn. intros r Hr' Hk.
           specialize (Hr' Hk). lia.
        -- repeat constructor. cbn. congruence.
      * rewrite requests_since_app, requests_since_other by done.
        split_and!; [lia | lia |].
        apply Forall_app. split; [done|].
        repeat constructor. cbn. congruence.
    + apply Forall_app. split.
      * eapply Forall_impl; [exact Hinv|]. cbn. intros r Hr' Hk.
        specialize (Hr' Hk). lia.
      * repeat constructor. cbn. congruence.
Qed.

Lemma chronological_snoc reqs r :
  chronological (reqs ++ [r]) →
  chronological reqs ∧ Forall (λ r', r'.2 <= r.2) reqs.
Proof.
  intros Hch. split.
  - intros pre r0 post ->. apply (Hch pre r0 (post ++ [r])).
    by rewrite <- app_assoc.
  - by apply (Hch reqs r []).
Qed.

Lemma chronological_sorted reqs :
  StronglySorted (λ a b : Request, a.2 <= b.2) reqs → chronological reqs.
Proof.
  induction 1 as [|x l Hl IH Hx]; intros pre r post Heq.
  - by destruct pre.
  - destruct pre as [|y pre]; [constructor|].
    injection Heq as <- ->. constructor.
    + rewrite Forall_forall in Hx. apply Hx.
      apply elem_of_app. right. left.
    + by apply (IH pre r post).
Qed.

Lemma serve_snoc opts reqs r store :
  serve opts (reqs ++ [r]) store
  = (rateLimit opts r.1 r.2 (serve opts reqs store)).2.
Proof. unfold serve. by rewrite fold_left_app. Qed.

Lemma window_inv_serve opts reqs :
  0 <= windowMs opts →
  chronological reqs →
  ∀ T, Forall (λ r, r.2 <= T) reqs →
       window_inv opts reqs T (serve opts reqs ∅).
Proof.
  intros HW. induction reqs as [|[key now] reqs IH] using rev_ind;
    intros Hch T Hall.
  - intros k. cbn. rewrite lookup_empty. constructor.
  - apply chronological_snoc in Hch as [Hch Hbefore]. cbn in Hbefore.
    apply Forall_app in Hall as [_ Hnow].
    rewrite Forall_singleton in Hnow. cbn in Hnow.
    rewrite serve_snoc. cbn.
    apply (window_inv_later opts _ now T); [exact Hnow|].
    apply (window_inv_step opts reqs now); [exact HW | lia |].
    by apply IH.
Qed.

(** Through one limiter starting from an empty store, the count that is
    compared with [max] is the number of requests of the key in its
    current window, the present one included, and the present request
    lies in that window. *)
Lemma rateLimit_count_is_window_requests opts reqs key now :
  0 <= windowMs opts →
  chronological (reqs ++ [(key, now)]) →
  let e := spec_window opts now (serve opts reqs ∅ !! key) in
  count e = requests_since key (resetTime e) (reqs ++ [(key, now)])
  ∧ resetTime e <= now <= resetTime e + windowMs opts.
Proof.
  intros HW Hch.
  pose proof (window_inv_serve opts (reqs ++ [(key, now)]) HW Hch now)
    as Hinv.
  destruct (chronological_snoc _ _ Hch) as [_ Hbefore]. cbn in Hbefore.
  assert (Forall (λ r : Request, r.2 <= now) (reqs ++ [(key, now)]))
    as Hall0.
  { apply Forall_app. split; [done|]. by apply Forall_singleton. }
  specialize (Hinv Hall0 key).
  rewrite serve_snoc in Hinv. cbn in Hinv. rewrite rateLimit_entry in Hinv.
  destruct Hinv as (Hc & Hr & Hall). cbn. split; [done|].
  split; [done|].
  apply Forall_app in Hall as [_ Hlast].
  rewrite Forall_singleton in Hlast. by apply Hlast.
Qed.

End RateLimitFacts.

Section RateLimitClaims.
Import RateLimit.

(** C5.  For every key, options, time and store, the request leaves for
    the key the entry of the fixed-window algorithm (the counter reset
    and the window start moved to [now] when more than [windowMs] has
    passed since the window start, then the counter incremented), and it
    is rejected exactly when that count, the present request included,
    is greater than [max].  Through one limiter from an empty store that
    count is the number of requests of the key since the window start.
    When more than [windowMs] has passed since the window start, the
    entry after the request is a fresh window with count 1, and the
    request is admitted (for [max >= 1]).  A rejection is a 429 whose
    [retryAfter] is the number of milliseconds until the window closes,
    in seconds, rounded up. *)
Theorem rateLimit_fixed_window opts key now store :
  let e := spec_window opts now (store !! key) in
  let out := (rateLimit opts key now store).1 in
  (rateLimit opts key now store).2 !! key = Some e
  ∧ ((∃ res, out = Rejected res) ↔ count e > max opts)
  ∧ (∀ reqs,
       0 <= windowMs opts →
       chronological (reqs ++ [(key, now)]) →
       store = serve opts reqs ∅ →
       count e = requests_since key (resetTime e) (reqs ++ [(key, now)])
       ∧ resetTime e <= now <= resetTime e + windowMs opts)
  ∧ (∀ old,
       store !! key = Some old →
       now - resetTime old > windowMs opts →
       e = mkRateData 1 now
       ∧ (1 <= max opts →
          out = Next (max opts) (max opts - 1) (now + windowMs opts)))
  ∧ (∀ res,
       out = Rejected res →
       res_status res = 429
       ∧ ∃ s, res_retryAfter res = Some s
              ∧ 1000 * (s - 1) < resetTime e + windowMs opts - now
              ∧ resetTime e + windowMs opts - now <= 1000 * s).
Proof.
  intros e out.
  pose proof (rateLimit_outcome opts key now store) as Hout.
  cbn zeta in Hout. fold e in Hout. fold out in Hout.
  split_and!.
  - apply rateLimit_entry.
  - rewrite Hout. destruct (Z.gtb_spec (count e) (max opts)).
    + split; [lia | eauto].
    + split; [by intros [res ?] | lia].
  - intros reqs HW Hch ->.
    by apply rateLimit_count_is_window_requests.
  - intros old Hold Hexp.
    assert (e = mkRateData 1 now) as He.
    { unfold e. rewrite Hold. cbn.
      destruct (Z.gtb_spec (now - resetTime old) (windowMs opts));
        [done | lia]. }
    split; [done|]. intros Hmax. rewrite Hout, He. cbn.
    destruct (Z.gtb_spec 1 (max opts)); [lia|].
    f_equal. lia.
  - intros res Hres. rewrite Hout in Hres.
    destruct (count e >? max opts); [|done].
    injection Hres as <-. cbn. split; [done|].
    eexists. split; [reflexivity|]. apply Math_ceil_ms.
Qed.

Lemma rateLimit_fixed_window_witness :
  (∃ res,
     (rateLimit otpRateLimit "10.0.0.1" 3000 Scenario.store_after_three).1
     = Rejected res
     ∧ res_retryAfter res = Some 297)
  ∧ requests_since "10.0.0.1" 0
      (Scenario.three_requests ++ [("10.0.0.1", 3000)])
    = count (spec_window otpRateLimit 3000
               (Scenario.store_after_three !! "10.0.0.1"))
  ∧ (rateLimit otpRateLimit "10.0.0.1" 400000
               Scenario.store_after_three).1
    = Next 3 2 700000.
Proof.
  pose proof (rateLimit_fixed_window otpRateLimit "10.0.0.1" 3000
                Scenario.store_after_three)
    as (_ & Hrej & Hcount & _ & Hretry).
  pose proof (rateLimit_fixed_window otpRateLimit "10.0.0.1" 400000
                Scenario.store_after_three)
    as (_ & _ & _ & Hfresh & _).
  split_and!.
  - destruct (proj2 Hrej) as [res Hres]; [vm_compute; reflexivity|].
    exists res. split; [exact Hres|].
    destruct (Hretry res Hres) as (_ & s & Hs & Hlo & Hhi).
    rewrite Hs. f_equal.
    vm_compute in Hlo. vm_compute in Hhi.
    change (1000 * (s - 1) < 297000) in Hlo.
    change (297000 <= 1000 * s) in Hhi. lia.
  - destruct (Hcount Scenario.three_requests) as [Hc _].
    + vm_compute. discriminate.
    + apply chronological_sorted.
      repeat (constructor; [|repeat constructor; cbn; lia]).
      constructor.
    + reflexivity.
    + symmetry. exact Hc.
  - destruct (Hfresh (mkRateData 3 0)) as [_ Hnext].
    + vm_compute. reflexivity.
    + vm_compute. reflexivity.
    + apply Hnext. vm_compute. discriminate.
Defined.

End RateLimitClaims.

(** ** Review moderation *)

Section ReviewFacts.
Import Reviews.
Implicit Types (db : Db) (rs : list Review).

(** [Math.round] picks the nearest integer, a tie going up. *)
Lemma Math_round_nearest (q : Q) :
  (inject_Z (Math_round q) - (1 # 2) <= q)%Q
  ∧ (q < inject_Z (Math_round q) + (1 # 2))%Q.
Proof.
  unfold Math_round.
  pose proof (Qfloor_le (q + (1 # 2))) as Hle.
  pose proof (Qlt_floor (q + (1 # 2))) as Hlt.
  rewrite inject_Z_plus in Hlt. change (inject_Z 1) with 1%Q in Hlt.
  split; lra.
Qed.

Lemma sum_ratings_foldr rs :
  sum_ratings rs = foldr Z.add 0 (r_rating <$> rs).
Proof.
  unfold sum_ratings. induction rs as [|r rs IH]; cbn; [done|].
  by rewrite IH.
Qed.

Lemma rating_of_rounded matched :
  rounded_1dp (mean (r_rating <$> matched)) (rating_of matched).
Proof.
  unfold rounded_1dp, rating_of, mean.
  rewrite length_fmap, <- sum_ratings_foldr.
  eexists. split; [reflexivity|]. apply Math_round_nearest.
Qed.

(** [updateProductRating] in one equation. *)
Lemma updateProductRating_products productId db :
  products (updateProductRating (FromDocument productId) db)
  = match approved_of productId (reviews db) with
    | [] => products db
    | matched =>
        alter (set_rating (rating_of matched)
                          (Z.of_nat (length matched)))
              productId (products db)
    end.
Proof.
  unfold updateProductRating, Review_aggregate.
  by destruct (approved_of productId (reviews db)).
Qed.

(** A string from a request body matches no review: nothing is
    updated. *)
Lemma updateProductRating_FromRequest productId db :
  updateProductRating (FromRequest productId) db = db.
Proof. reflexivity. Qed.

Lemma updateProductRating_reviews productId db :
  reviews (updateProductRating productId db) = reviews db
  ∧ orders (updateProductRating productId db) = orders db.
Proof.
  unfold updateProductRating.
  by destruct (Review_aggregate productId (reviews db)).
Qed.

Lemma updateProductRating_in_sync productId db :
  in_sync productId db →
  products (updateProductRating (FromDocument productId) db) = products db.
Proof.
  intros Hsync. rewrite updateProductRating_products.
  destruct (approved_of productId (reviews db)) as [|r matched] eqn:Happ;
    [done|].
  apply map_eq. intros k. unfold in_sync in Hsync. rewrite Happ in Hsync.
  destruct (decide (k = productId)) as [->|Hne].
  - rewrite lookup_alter_eq.
    destruct (products db !! productId) as [p|]; [|done].
    destruct (Hsync p eq_refl) as [Hr Hc]. cbn. f_equal.
    destruct p. cbn in *. by rewrite <- Hr, <- Hc.
  - by rewrite lookup_alter_ne.
Qed.

(** A pending review is not in the aggregate. *)
Lemma approved_of_snoc_pending productId rs r :
  r_status r = "pending" →
  approved_of productId (rs ++ [r]) = approved_of productId rs.
Proof.
  intros Hst. unfold approved_of. rewrite filter_app, filter_cons, filter_nil.
  destruct (decide _) as [[_ Happ]|_]; [|by rewrite app_nil_r].
  rewrite Hst in Happ. discriminate.
Qed.

(** What [createReview] does to the store: nothing when it answers an
    error, otherwise it appends the pending review; its call of
    [updateProductRating] finds no review. *)
Lemma createReview_store newId userId req db :
  (res_success (createReview newId userId req db).1 = false
   ∧ (createReview newId userId req db).2 = db)
  ∨ ∃ productId review,
      rq_productId req = Some productId
      ∧ (createReview newId userId req db).1
        = json_ok 201
            "Review submitted successfully. It will be published after moderation."
            (Some review)
      ∧ r_product review = productId
      ∧ r_status review = "pending"
      ∧ (createReview newId userId req db).2
        = mkDb (products db) (orders db) (reviews db ++ [review]).
Proof.
  unfold createReview.
  destruct (rq_productId req) as [productId|]; [|by left].
  destruct (rq_rating req) as [rating|]; [|by left].
  destruct (rq_comment req) as [comment|]; [|by left].
  destruct (_ || _); [by left|].
  destruct (_ || _); [by left|].
  destruct (list_find _ _); [by left|].
  right. eexists _, _. split_and!; reflexivity.
Qed.

(** A recomputation that finds approved reviews puts the product in
    sync with them. *)
Lemma updateProductRating_establishes_sync productId db :
  approved_of productId (reviews db) ≠ [] →
  in_sync productId (updateProductRating (FromDocument productId) db).
Proof.
  intros Hne p'.
  rewrite (proj1 (updateProductRating_reviews (FromDocument productId) db)).
  rewrite updateProductRating_products.
  destruct (approved_of productId (reviews db)) as [|r matched]; [done|].
  rewrite lookup_alter_eq.
  destruct (products db !! productId) as [p|]; [|done].
  cbn. by intros [= <-].
Qed.

End ReviewFacts.

Section ReviewClaims.
Import Reviews.
Implicit Types (db : Db).

(** C8.  When an admin moderates an existing review to approved, the
    review is stored as approved and the product of the review gets as
    [rating] the mean of the ratings of all its approved reviews in the
    store after the update, rounded to one decimal place, and as
    [reviewCount] their number; its other fields stay.  Both values are
    computed from the approved reviews alone: the rating and count
    stored before do not enter. *)
Theorem approval_recomputes_rating now reviewId adminResponse db i old p :
  list_find (λ r, r_id r = reviewId) (reviews db) = Some (i, old) →
  products db !! r_product old = Some p →
  let db' := (moderateReview now reviewId "approved" adminResponse db).2 in
  let approved := approved_of (r_product old) (reviews db') in
  reviews db' = <[i := moderated now "approved" adminResponse old]>
                  (reviews db)
  ∧ moderated now "approved" adminResponse old ∈ approved
  ∧ ∃ p',
      products db' !! r_product old = Some p'
      ∧ rounded_1dp (mean (r_rating <$> approved)) (p_rating p')
      ∧ p_reviewCount p' = Z.of_nat (length approved)
      ∧ p' = set_rating (p_rating p') (p_reviewCount p') p.
Proof.
  intros Hfind Hp db' approved.
  assert (db' = updateProductRating (FromDocument (r_product old))
                  (mkDb (products db) (orders db)
                     (<[i := moderated now "approved" adminResponse old]>
                        (reviews db)))) as Hdb'.
  { unfold db', moderateReview.
    rewrite bool_decide_eq_true_2 by (by left). cbn [negb].
    rewrite Hfind. cbn [snd].
    by rewrite bool_decide_eq_true_2. }
  apply list_find_Some in Hfind as (Hi & _ & _).
  assert (reviews db' = <[i := moderated now "approved" adminResponse old]>
                          (reviews db)) as Hrs.
  { rewrite Hdb'. apply updateProductRating_reviews. }
  assert (moderated now "approved" adminResponse old ∈ approved) as Hin.
  { unfold approved, approved_of. rewrite Hrs.
    apply list_elem_of_filter. split; [done|].
    apply list_elem_of_insert. by eapply lookup_lt_Some. }
  split_and!; [done | done |].
  rewrite Hdb', updateProductRating_products. cbn [reviews products].
  fold (approved_of (r_product old)
          (<[i := moderated now "approved" adminResponse old]>
             (reviews db))).
  rewrite <- Hrs. fold approved.
  destruct approved as [|r matched] eqn:Happ;
    [by apply elem_of_nil in Hin|].
  rewrite lookup_alter_eq, Hp. cbn [fmap option_fmap option_map].
  eexists. split; [reflexivity|]. cbn [set_rating p_rating p_reviewCount].
  split_and!; [apply rating_of_rounded | done | done].
Qed.

Lemma approval_recomputes_rating_witness :
  ∃ p',
    products (moderateReview 1000 "r1" "approved" None
                Scenario.db_two_pending).2 !! "p1" = Some p'
    ∧ (p_rating p' == 5)%Q
    ∧ p_reviewCount p' = 1.
Proof.
  destruct (list_find (λ r, r_id r = "r1")
              (reviews Scenario.db_two_pending)) as [[i old]|] eqn:Hfind;
    [|vm_compute in Hfind; discriminate].
  assert (r_product old = "p1") as Hpid.
  { vm_compute in Hfind. by injection Hfind as _ <-. }
  assert (products Scenario.db_two_pending !! r_product old
          = Some Scenario.widget) as Hp.
  { rewrite Hpid. vm_compute. reflexivity. }
  destruct (approval_recomputes_rating 1000 "r1" None
              Scenario.db_two_pending i old Scenario.widget Hfind Hp)
    as (_ & _ & p' & Hp' & _ & _ & _).
  rewrite Hpid in Hp'. exists p'. split; [exact Hp'|].
  vm_compute in Hp'. injection Hp' as <-. split; reflexivity.
Defined.

(** C10.  Submitting a review leaves the rating and the review count
    of every product as they are, whether the request is accepted or
    refused: all products are after the request what they were before.
    An accepted request appends the review in status pending, so the
    approved reviews of every product are the same after it; the
    recomputation that the handler calls finds no approved review
    (the product id of the request body, a string, matches none), and
    the update of the product is skipped. *)
Theorem createReview_leaves_rating_unchanged newId userId req db :
  let res := (createReview newId userId req db).1 in
  let db' := (createReview newId userId req db).2 in
  products db' = products db
  ∧ (∀ id, p_rating <$> (products db' !! id)
           = p_rating <$> (products db !! id)
           ∧ p_reviewCount <$> (products db' !! id)
             = p_reviewCount <$> (products db !! id))
  ∧ (∀ productId,
       approved_of productId (reviews db')
       = approved_of productId (reviews db))
  ∧ (res_success res = false → db' = db)
  ∧ (res_success res = true →
     ∃ review,
       reviews db' = reviews db ++ [review]
       ∧ r_status review = "pending").
Proof.
  intros res db'. unfold res, db'.
  destruct (createReview_store newId userId req db)
    as [[Hfail Hsame]|(pid & review & Hpid & Hres & Hprod & Hst & Hrun)].
  - rewrite Hsame, Hfail. split_and!; done.
  - rewrite Hrun, Hres. cbn [products reviews].
    split_and!; [done | done | | done |].
    + intros productId. by apply approved_of_snoc_pending.
    + intros _. by exists review.
Qed.

End ReviewClaims.

(** ** Order workflow: further properties *)

Section OrderMore.
Import Orders OrderViews.
Implicit Types (db : Db) (os : list Order) (o : Order).

Lemma evolves_refl o : evolves o o.
Proof. unfold evolves. split_and!; done. Qed.

Lemma evolves_trans o1 o2 o3 : evolves o1 o2 → evolves o2 o3 → evolves o1 o3.
Proof.
  unfold evolves. intros (?&?&?&?&?&?&?&?&?) (?&?&?&?&?&?&?&?&?).
  split_and!; try congruence. by etrans.
Qed.

Lemma evolves_Order_with o a b c tl e f g h :
  o_timeline o `prefix_of` tl →
  evolves o (Order_with o a b c tl e f g h).
Proof. intros Hp. unfold evolves. split_and!; done. Qed.

(** Every handler leaves each stored order in its place, evolved. *)
Lemma Order_save_evolves i o o' os j oj :
  os !! i = Some o → evolves o o' →
  os !! j = Some oj →
  ∃ oj', Order_save i o' os !! j = Some oj' ∧ evolves oj oj'.
Proof.
  intros Hi Hev Hj. unfold Order_save.
  destruct (decide (i = j)) as [<-|Hne].
  - exists o'. rewrite list_lookup_insert_eq by by eapply lookup_lt_Some.
    split; [done|]. congruence.
  - exists oj. rewrite list_lookup_insert_ne by done.
    split; [done | apply evolves_refl].
Qed.

Lemma step_evolves op db j oj :
  orders db !! j = Some oj →
  ∃ oj', orders (step op db) !! j = Some oj' ∧ evolves oj oj'.
Proof.
  intros Hj. destruct op; cbn [step].
  - rewrite createOrder_store.
    exists oj. split; [done | apply evolves_refl].
  - unfold updateOrderStatus. case_match.
    { exists oj. split; [done | apply evolves_refl]. }
    unfold findByOrderNumber.
    destruct (list_find _ _) as [[i o]|] eqn:Hfind; cbn [snd orders].
    2:{ exists oj. split; [done | apply evolves_refl]. }
    apply list_find_Some in Hfind as (Hi & _ & _).
    eapply Order_save_evolves; [done| |done].
    apply evolves_Order_with. by apply prefix_app_r.
  - unfold verifyPayment, findByOrderNumber.
    destruct (list_find _ _) as [[i o]|] eqn:Hfind; cbn [snd orders].
    2:{ exists oj. split; [done | apply evolves_refl]. }
    apply list_find_Some in Hfind as (Hi & _ & _).
    eapply Order_save_evolves; [done| |done].
    by apply evolves_Order_with.
  - unfold requestReturn.
    destruct (list_find _ _) as [[i o]|] eqn:Hfind; cbn [snd orders].
    2:{ exists oj. split; [done | apply evolves_refl]. }
    apply list_find_Some in Hfind as (Hi & _ & _).
    case_match; cbn [snd orders].
    { exists oj. split; [done | apply evolves_refl]. }
    eapply Order_save_evolves; [done| |done].
    by apply evolves_Order_with.
Qed.

(** X1.  Stored orders are never removed, reordered or rewritten: after
    any sequence of create-order, status-update, payment-verification
    and return requests, an order that was stored is still at its
    position with the same order number, owner, customer, address, line
    snapshots, pricing and payment method, and its timeline before is a
    prefix of its timeline after. *)
Theorem orders_history_append_only ops db j oj :
  orders db !! j = Some oj →
  ∃ oj', orders (run ops db) !! j = Some oj' ∧ evolves oj oj'.
Proof.
  unfold run. revert db oj.
  induction ops as [|op ops IH]; intros db oj Hj; cbn [fold_left].
  - exists oj. split; [done | apply evolves_refl].
  - destruct (step_evolves op db j oj Hj) as (o1 & H1 & Hev1).
    destruct (IH _ _ H1) as (o2 & H2 & Hev2).
    exists o2. split; [done|]. by eapply evolves_trans.
Qed.

Lemma orders_history_append_only_witness :
  ∃ o o',
    orders Scenario.db_ordered !! 0%nat = Some o
    ∧ orders (run [UpdateOrderStatus 1700000002000 "admin"
                     "TUA-00000000-ABCDE" "shipped" None None None;
                   VerifyPayment 1700000003000 "admin"
                     "TUA-00000000-ABCDE" None None None]
                  Scenario.db_ordered) !! 0%nat = Some o'
    ∧ o_total o' = o_total o
    ∧ length (o_timeline o) = 1%nat
    ∧ length (o_timeline o') = 2%nat.
Proof.
  destruct (orders Scenario.db_ordered !! 0%nat) as [o|] eqn:Ho;
    [|vm_compute in Ho; discriminate].
  destruct (orders_history_append_only
              [UpdateOrderStatus 1700000002000 "admin"
                 "TUA-00000000-ABCDE" "shipped" None None None;
               VerifyPayment 1700000003000 "admin"
                 "TUA-00000000-ABCDE" None None None]
              Scenario.db_ordered 0%nat o Ho)
    as (o' & Ho' & Hev).
  exists o, o'. split_and!; [done | done | | |].
  - destruct Hev as (_&_&_&_&_&_&Hp&_). unfold pricing in Hp. congruence.
  - vm_compute in Ho. by injection Ho as <-.
  - vm_compute in Ho'. by injection Ho' as <-.
Defined.

(** *** Status fields *)

Lemma Forall_Order_save (P : Order → Prop) i o' os :
  Forall P os → P o' → Forall P (Order_save i o' os).
Proof. intros. by apply Forall_insert. Qed.

Lemma step_coherent op db :
  Forall coherent (orders db) → Forall coherent (orders (step op db)).
Proof.
  intros Hall. destruct op; cbn [step].
  - by rewrite createOrder_store.
  - unfold updateOrderStatus. case_bool_decide as Hst; cbn [negb]; [|done].
    unfold findByOrderNumber.
    destruct (list_find _ _) as [[i o]|] eqn:Hfind; cbn [snd orders];
      [|done].
    apply list_find_Some in Hfind as (Hi & _ & _).
    rewrite Forall_lookup in Hall. destruct (Hall _ _ Hi) as (_ & Hpay & _).
    apply Forall_Order_save; [by apply Forall_lookup|].
    unfold coherent. cbn. split_and!; [done | done |].
    by rewrite last_snoc.
  - unfold verifyPayment, findByOrderNumber.
    destruct (list_find _ _) as [[i o]|] eqn:Hfind; cbn [snd orders];
      [|done].
    apply list_find_Some in Hfind as (Hi & _ & _).
    rewrite Forall_lookup in Hall. destruct (Hall _ _ Hi) as (Hs & _ & Hl).
    apply Forall_Order_save; [by apply Forall_lookup|].
    unfold coherent. cbn. split_and!; [done | | done].
    unfold paymentStatuses. rewrite !elem_of_cons. auto.
  - unfold requestReturn.
    destruct (list_find _ _) as [[i o]|] eqn:Hfind; cbn [snd orders];
      [|done].
    apply list_find_Some in Hfind as (Hi & _ & _).
    case_match; cbn [snd orders]; [done|].
    rewrite Forall_lookup in Hall. destruct (Hall _ _ Hi) as (Hs & Hp & Hl).
    apply Forall_Order_save; [by apply Forall_lookup|].
    unfold coherent. cbn. done.
Qed.

Lemma run_coherent ops db :
  Forall coherent (orders db) → Forall coherent (orders (run ops db)).
Proof.
  unfold run. revert db.
  induction ops as [|op ops IH]; intros db H0; cbn [fold_left]; [done|].
  by apply IH, step_coherent.
Qed.

(** X2.  The status fields of the stored orders stay coherent: when
    every stored order has a status and a payment status of the
    enumerations and its status is the status of the last entry of its
    timeline, this is still so for every stored order after any sequence
    of order requests. *)
Theorem order_status_follows_timeline ops db o :
  Forall coherent (orders db) →
  o ∈ orders (run ops db) →
  o_status o ∈ validStatuses
  ∧ o_paymentStatus o ∈ paymentStatuses
  ∧ tl_status <$> last (o_timeline o) = Some (o_status o).
Proof.
  intros Hcoherent Hin.
  assert (Forall coherent (orders (run ops db))) as Hall
    by (by apply run_coherent).
  rewrite Forall_forall in Hall. by apply Hall.
Qed.

Lemma order_status_follows_timeline_witness :
  ∃ o,
    orders (run [UpdateOrderStatus 1700000002000 "admin"
                   "TUA-00000000-ABCDE" "shipped" None None None;
                 VerifyPayment 1700000003000 "admin"
                   "TUA-00000000-ABCDE" None None None]
                Scenario.db_ordered) !! 0%nat = Some o
    ∧ o_status o = "shipped"
    ∧ o_paymentStatus o = "paid"
    ∧ tl_status <$> last (o_timeline o) = Some "shipped".
Proof.
  destruct (orders (run [UpdateOrderStatus 1700000002000 "admin"
                           "TUA-00000000-ABCDE" "shipped" None None None;
                         VerifyPayment 1700000003000 "admin"
                           "TUA-00000000-ABCDE" None None None]
                        Scenario.db_ordered) !! 0%nat) as [o|] eqn:Ho;
    [|vm_compute in Ho; discriminate].
  exists o. split; [done|].
  assert (o_status o = "shipped") as Hst.
  { vm_compute in Ho. by injection Ho as <-. }
  split; [done|]. split.
  { vm_compute in Ho. by injection Ho as <-. }
  rewrite <- Hst.
  assert (o ∈ orders (run [UpdateOrderStatus 1700000002000 "admin"
                             "TUA-00000000-ABCDE" "shipped" None None
                             None;
                           VerifyPayment 1700000003000 "admin"
                             "TUA-00000000-ABCDE" None None None]
                          Scenario.db_ordered)) as Hin
    by (apply list_elem_of_lookup; eauto).
  assert (Forall coherent (orders Scenario.db_ordered)) as Hcoherent.
  { apply Forall_singleton. unfold coherent. cbn. split_and!.
    - unfold validStatuses. rewrite !elem_of_cons. auto.
    - unfold paymentStatuses. rewrite !elem_of_cons. auto.
    - done. }
  by destruct (order_status_follows_timeline _ Scenario.db_ordered o
                 Hcoherent Hin) as (_ & _ & Hl).
Defined.

(** *** Order numbers *)

Lemma Order_save_numbers i o o' os :
  os !! i = Some o → o_orderNumber o' = o_orderNumber o →
  o_orderNumber <$> Order_save i o' os = o_orderNumber <$> os.
Proof.
  intros Hi Hn. unfold Order_save. rewrite list_fmap_insert, Hn.
  apply list_insert_id. by rewrite list_lookup_fmap, Hi.
Qed.

Lemma step_unique_numbers op db :
  NoDup (o_orderNumber <$> orders db) →
  NoDup (o_orderNumber <$> orders (step op db)).
Proof.
  intros Hnd. destruct op; cbn [step].
  - by rewrite createOrder_store.
  - unfold updateOrderStatus. case_match; [done|].
    unfold findByOrderNumber.
    destruct (list_find _ _) as [[i o]|] eqn:Hfind; cbn [snd orders];
      [|done].
    apply list_find_Some in Hfind as (Hi & _ & _).
    by rewrite (Order_save_numbers i o).
  - unfold verifyPayment, findByOrderNumber.
    destruct (list_find _ _) as [[i o]|] eqn:Hfind; cbn [snd orders];
      [|done].
    apply list_find_Some in Hfind as (Hi & _ & _).
    by rewrite (Order_save_numbers i o).
  - unfold requestReturn.
    destruct (list_find _ _) as [[i o]|] eqn:Hfind; cbn [snd orders];
      [|done].
    apply list_find_Some in Hfind as (Hi & _ & _).
    case_match; cbn [snd orders]; [done|].
    by rewrite (Order_save_numbers i o).
Qed.

Lemma run_unique_numbers ops db :
  NoDup (o_orderNumber <$> orders db) →
  NoDup (o_orderNumber <$> orders (run ops db)).
Proof.
  unfold run. revert db.
  induction ops as [|op ops IH]; intros db H0; cbn [fold_left]; [done|].
  by apply IH, step_unique_numbers.
Qed.

(** X3.  No request changes the order number of a stored order or
    adds an order under a number that is taken, so every stored order
    can be fetched by its number: on a store whose order numbers are
    distinct, after any sequence of order requests the lookup by the
    order number of a stored order returns that very order. *)
Theorem order_found_by_its_number ops db o :
  NoDup (o_orderNumber <$> orders db) →
  o ∈ orders (run ops db) →
  ∃ i, findByOrderNumber (o_orderNumber o) (orders (run ops db))
       = Some (i, o).
Proof.
  intros Hnd Hin. apply run_unique_numbers with (ops := ops) in Hnd.
  apply list_elem_of_lookup in Hin as [i Hi]. exists i.
  unfold findByOrderNumber. apply list_find_Some.
  split_and!; [done | done |].
  intros j y Hj Hlt Hy.
  assert (i = j); [|lia].
  eapply (NoDup_lookup _ i j (o_orderNumber o) Hnd);
    rewrite list_lookup_fmap.
  - by rewrite Hi.
  - by rewrite Hj; cbn; rewrite Hy.
Qed.

Lemma order_found_by_its_number_witness :
  ∃ i o,
    findByOrderNumber "TUA-00000000-ABCDE"
      (orders (run [UpdateOrderStatus 1700000002000 "admin"
                      "TUA-00000000-ABCDE" "shipped" None None None;
                    CreateOrder Scenario.env1 Scenario.req_two]
                   Scenario.db_ordered)) = Some (i, o)
    ∧ o_status o = "shipped".
Proof.
  destruct (orders (run [UpdateOrderStatus 1700000002000 "admin"
                           "TUA-00000000-ABCDE" "shipped" None None None;
                         CreateOrder Scenario.env1 Scenario.req_two]
                        Scenario.db_ordered) !! 0%nat) as [o|] eqn:Ho;
    [|vm_compute in Ho; discriminate].
  destruct (order_found_by_its_number
              [UpdateOrderStatus 1700000002000 "admin"
                 "TUA-00000000-ABCDE" "shipped" None None None;
               CreateOrder Scenario.env1 Scenario.req_two]
              Scenario.db_ordered o) as [i Hi].
  - vm_compute. apply NoDup_singleton.
  - apply list_elem_of_lookup. eauto.
  - exists i, o. split.
    + rewrite <- Hi. f_equal.
      vm_compute in Ho. by injection Ho as <-.
    + vm_compute in Ho. by injection Ho as <-.
Defined.

(** *** Stock accounting *)

Lemma inc_stock_sales_0 p : inc_stock_sales 0 p = p.
Proof. destruct p. unfold inc_stock_sales. cbn. f_equal; lia. Qed.

Lemma inc_stock_sales_add q1 q2 p :
  inc_stock_sales q2 (inc_stock_sales q1 p) = inc_stock_sales (q1 + q2) p.
Proof. destruct p. unfold inc_stock_sales. cbn. f_equal; lia. Qed.

Lemma step_products_other op db :
  (∀ env req, op ≠ CreateOrder env req) →
  products (step op db) = products db.
Proof.
  intros Hop. destruct op; cbn [step].
  - by destruct (Hop env req).
  - unfold updateOrderStatus. case_match; [done|].
    destruct (findByOrderNumber _ _) as [[i o]|]; done.
  - unfold verifyPayment.
    destruct (findByOrderNumber _ _) as [[i o]|]; done.
  - unfold requestReturn.
    destruct (list_find _ _) as [[i o]|]; [|done]. by case_match.
Qed.

Lemma step_products op db id :
  ∃ q, products (step op db) !! id
       = inc_stock_sales q <$> (products db !! id).
Proof.
  assert (products db !! id = inc_stock_sales 0 <$> (products db !! id))
    as Hsame.
  { destruct (products db !! id); cbn; [|done].
    by rewrite inc_stock_sales_0. }
  destruct op;
    try (exists 0; rewrite step_products_other by done; exact Hsame).
  rewrite step_CreateOrder. eauto.
Qed.




(** X6.  Order requests never create stock: after any sequence of
    them every product is the product before with some quantity [q]
    moved from [stock] to [salesCount] (so [stock + salesCount], the
    price, the title and the rating fields are as before), and the set
    of products is the same. *)
Theorem order_requests_conserve_stock ops db id :
  ∃ q, products (run ops db) !! id
       = inc_stock_sales q <$> (products db !! id).
Proof.
  unfold run. revert db.
  induction ops as [|op ops IH]; intros db; cbn [fold_left].
  - exists 0. destruct (products db !! id); cbn; [|done].
    by rewrite inc_stock_sales_0.
  - destruct (IH (step op db)) as [q2 H2].
    destruct (step_products op db id) as [q1 H1].
    exists (q1 + q2). rewrite H2, H1.
    destruct (products db !! id); cbn; [|done].
    by rewrite inc_stock_sales_add.
Qed.

(** *** Status update *)

(** X8.  A status update is accepted exactly when the status is one of
    the seven of the enumeration and the order number designates an
    order, whatever the status of that order is: no transition between
    statuses is refused.  Accepted, it sets the status, appends one
    timeline entry with that status, the time and the admin, stamps
    [deliveredAt] when the status is delivered, and leaves the payment
    status, the products and the other orders as they are; refused, it
    leaves the store as it is. *)
Theorem updateOrderStatus_accepts_any_transition
    now adminId n status message courierName trackingNumber db :
  let run := updateOrderStatus now adminId n status message courierName
                               trackingNumber db in
  (res_success run.1 = true
   ↔ status ∈ validStatuses ∧ is_Some (findByOrderNumber n (orders db)))
  ∧ (res_success run.1 = false → run.2 = db)
  ∧ (∀ i order,
       status ∈ validStatuses →
       findByOrderNumber n (orders db) = Some (i, order) →
       ∃ order' message',
         run.2 = mkDb (products db) (<[i := order']> (orders db))
                      (reviews db)
         ∧ o_status order' = status
         ∧ o_timeline order'
           = o_timeline order
             ++ [mkTimelineEntry status message' now (Some adminId)]
         ∧ o_deliveredAt order'
           = (if bool_decide (status = "delivered") then Some now
              else o_deliveredAt order)
         ∧ o_paymentStatus order' = o_paymentStatus order).
Proof.
  intros run. unfold run, updateOrderStatus.
  case_bool_decide as Hst; cbn [negb].
  - destruct (findByOrderNumber n (orders db)) as [[i order]|] eqn:Hfind.
    + cbn. split_and!.
      * split; [intros _; split; [done | by eexists] | done].
      * done.
      * intros i' order' _ [= <- <-]. eexists _, _.
        split_and!; reflexivity.
    + cbn. split_and!.
      * split; [done | by intros [_ [? ?]]].
      * done.
      * by intros.
  - cbn. split_and!.
    + split; [done | by intros [? _]].
    + done.
    + by intros.
Qed.

Lemma updateOrderStatus_accepts_any_transition_witness :
  ∃ o',
    orders (run [UpdateOrderStatus 1 "admin" "TUA-00000000-ABCDE"
                   "delivered" None None None;
                 UpdateOrderStatus 2 "admin" "TUA-00000000-ABCDE"
                   "pending" None None None]
                Scenario.db_ordered) !! 0%nat = Some o'
    ∧ o_status o' = "pending"
    ∧ o_deliveredAt o' = Some 1.
Proof.
  pose proof (updateOrderStatus_accepts_any_transition 2 "admin"
                "TUA-00000000-ABCDE" "pending" None None None
                (step (UpdateOrderStatus 1 "admin" "TUA-00000000-ABCDE"
                         "delivered" None None None)
                      Scenario.db_ordered)) as (_ & _ & Hok).
  destruct (findByOrderNumber "TUA-00000000-ABCDE"
              (orders (step (UpdateOrderStatus 1 "admin"
                               "TUA-00000000-ABCDE" "delivered" None None
                               None) Scenario.db_ordered)))
    as [[i order]|] eqn:Hfind; [|vm_compute in Hfind; discriminate].
  destruct (Hok i order) as (o' & m & Hrun & Hst & _ & Hdel & _).
  - unfold validStatuses. rewrite !elem_of_cons. auto.
  - done.
  - exists o'.
    change (run _ Scenario.db_ordered)
      with (updateOrderStatus 2 "admin" "TUA-00000000-ABCDE" "pending"
              None None None
              (step (UpdateOrderStatus 1 "admin" "TUA-00000000-ABCDE"
                       "delivered" None None None) Scenario.db_ordered)).2.
    rewrite Hrun. cbn [orders].
    assert (i = 0%nat) as Hi.
    { vm_compute in Hfind. by injection Hfind as <- _. }
    split_and!; [|done|].
    + rewrite Hi. reflexivity.
    + rewrite Hdel. vm_compute in Hfind. by injection Hfind as _ <-.
Defined.

(** *** Return request *)

(** X9.  A return request is accepted only for an order that carries
    the given order number, belongs to the requesting user and is in
    status delivered.  Accepted, it records
    [{ requested: true, reason, status: 'pending' }] on that order and
    changes neither its status, payment status, pricing or timeline, nor
    the products; refused (404 for an unknown or foreign order, 400 for
    one that is not delivered), it leaves the store as it is. *)
Theorem requestReturn_only_own_delivered now userId n reason db :
  let run := requestReturn now userId n reason db in
  (res_success run.1 = false → run.2 = db)
  ∧ (res_success run.1 = true →
     ∃ i order order',
       orders db !! i = Some order
       ∧ o_orderNumber order = n
       ∧ o_user order = Some userId
       ∧ o_status order = "delivered"
       ∧ run.2 = mkDb (products db) (<[i := order']> (orders db))
                      (reviews db)
       ∧ o_returnRequest order'
         = Some (mkReturnRequest true reason "pending")
       ∧ o_status order' = "delivered"
       ∧ o_paymentStatus order' = o_paymentStatus order
       ∧ pricing order' = pricing order
       ∧ o_timeline order' = o_timeline order).
Proof.
  intros run. unfold run, requestReturn.
  destruct (list_find _ _) as [[i order]|] eqn:Hfind; [|done].
  apply list_find_Some in Hfind as (Hi & [Hn Hu] & _).
  case_bool_decide as Hst; cbn [negb]; [|done].
  cbn. split; [done|]. intros _.
  eexists i, order, _. split_and!; try reflexivity; done.
Qed.

Lemma requestReturn_only_own_delivered_witness :
  (requestReturn 5 "u1" "TUA-00000000-ABCDE" (Some "broken")
                 Scenario.db_ordered).2
  = Scenario.db_ordered.
Proof.
  apply requestReturn_only_own_delivered. vm_compute. reflexivity.
Defined.

(** *** Reading an order *)

(** X10.  [GET /orders/:orderNumber] refuses with 403 only a logged-in
    requester who is not the owner of an order that has an owner.  A
    request without a user is answered with the order whenever the
    order number exists, whoever owns the order. *)
Theorem getOrder_guest_reads_any_order n db i order :
  findByOrderNumber n (orders db) = Some (i, order) →
  getOrder None n db = mkResponse 200 true None None None (Some order)
  ∧ ∀ requester,
      (getOrder (Some requester) n db = json_error 403 "Unauthorized access"
       ↔ ∃ owner, o_user order = Some owner ∧ owner ≠ requester)
      ∧ (getOrder (Some requester) n db
         = mkResponse 200 true None None None (Some order)
         ↔ o_user order = None ∨ o_user order = Some requester).
Proof.
  intros Hfind. unfold getOrder. rewrite Hfind.
  destruct (o_user order) as [owner|]; [|split; [done|]].
  - split; [done|]. intros requester.
    case_bool_decide as Heq; cbn [negb].
    + subst. split; split; try done.
      * by intros (o & [= <-] & Hne).
      * by auto.
    + split; split; try done.
      * intros _. by exists owner.
      * by intros [?|[= ?]].
  - intros requester. split; split; try done.
    + by intros (o & ? & _).
    + by auto.
Qed.

Lemma getOrder_guest_reads_any_order_witness :
  ∃ order,
    getOrder None "TUA-00000000-ABCDE" Scenario.db_ordered
    = mkResponse 200 true None None None (Some order)
    ∧ o_total order = 560.
Proof.
  destruct (findByOrderNumber "TUA-00000000-ABCDE"
              (orders Scenario.db_ordered)) as [[i order]|] eqn:Hfind;
    [|vm_compute in Hfind; discriminate].
  destruct (getOrder_guest_reads_any_order _ _ _ _ Hfind) as [Hguest _].
  exists order. split; [exact Hguest|].
  vm_compute in Hfind. by injection Hfind as _ <-.
Defined.

(** *** Revenue *)

Lemma totalRevenue_sum db :
  totalRevenue db = foldr Z.add 0 (paid_total <$> orders db).
Proof.
  unfold totalRevenue.
  assert (∀ os : list Order,
            foldr Z.add 0
              (o_total <$> filter (λ o, o_paymentStatus o = "paid") os)
            = foldr Z.add 0 (paid_total <$> os)) as Hsum.
  { induction os as [|o os IH]; [done|].
    rewrite filter_cons. unfold paid_total at 1. cbn.
    destruct (decide (o_paymentStatus o = "paid")) as [Hp|Hp].
    - rewrite bool_decide_eq_true_2 by done. cbn. by rewrite IH.
    - rewrite bool_decide_eq_false_2 by done. by rewrite IH. }
  rewrite <- Hsum.
  destruct (filter _ (orders db)) as [|o paid]; [done|].
  unfold or_num. by case_match; [apply Z.eqb_eq in H|].
Qed.

Lemma sum_insert (g : Order → Z) os i o o' :
  os !! i = Some o →
  foldr Z.add 0 (g <$> <[i := o']> os)
  = foldr Z.add 0 (g <$> os) - g o + g o'.
Proof.
  revert i. induction os as [|x os IH]; intros [|i] Hi; try done.
  - injection Hi as ->. cbn. lia.
  - change (<[S i := o']> (x :: os)) with (x :: <[i := o']> os).
    rewrite !fmap_cons. cbn [foldr]. rewrite (IH i Hi). lia.
Qed.

(** X11.  Verifying the payment of an order raises the revenue of the
    admin statistics by the stored total of that order when the order
    was not paid before, and leaves it when it was; the amount submitted
    with the verification does not enter. *)
Theorem verifyPayment_revenue
    now adminId n transactionId senderNumber amount db i order :
  findByOrderNumber n (orders db) = Some (i, order) →
  totalRevenue (verifyPayment now adminId n transactionId senderNumber
                              amount db).2
  = totalRevenue db
    + (if bool_decide (o_paymentStatus order = "paid") then 0
       else o_total order).
Proof.
  intros Hfind. rewrite !totalRevenue_sum.
  unfold verifyPayment. rewrite Hfind. cbn [snd orders].
  unfold findByOrderNumber in Hfind.
  apply list_find_Some in Hfind as (Hi & _ & _).
  unfold Order_save. rewrite (sum_insert _ _ _ order) by done.
  unfold paid_total at 2 3. cbn.
  rewrite (bool_decide_eq_true_2 ("paid" = "paid")) by done.
  case_bool_decide; lia.
Qed.

Lemma verifyPayment_revenue_witness :
  totalRevenue Scenario.db_ordered = 0
  ∧ totalRevenue (verifyPayment 1700000001000 "admin"
                    "TUA-00000000-ABCDE" (Some "TX1") None (Some 1)
                    Scenario.db_ordered).2 = 560.
Proof.
  split; [vm_compute; reflexivity|].
  destruct (findByOrderNumber "TUA-00000000-ABCDE"
              (orders Scenario.db_ordered)) as [[i order]|] eqn:Hfind;
    [|vm_compute in Hfind; discriminate].
  rewrite (verifyPayment_revenue _ _ _ _ _ _ _ i order Hfind).
  vm_compute in Hfind. injection Hfind as _ <-. reflexivity.
Defined.

End OrderMore.

(** ** Phone numbers *)

Section PhoneFacts.
Import Phone.

Lemma remove_non_digits_digits s : all_digits (remove_non_digits s) = true.
Proof.
  induction s as [|c s IH]; [done|]. cbn.
  destruct (is_digit c) eqn:Hc; [|done]. cbn. by rewrite Hc.
Qed.

Lemma strip_88_digits s : all_digits s = true → all_digits (strip_88 s) = true.
Proof.
  destruct s as [|c1 [|c2 s]]; try done. unfold strip_88.
  destruct (Ascii.eqb c1 "8"%char && Ascii.eqb c2 "8"%char); [|done].
  cbn. intros H. apply andb_true_iff in H as [_ H].
  by apply andb_true_iff in H as [_ H].
Qed.

Lemma sanitizePhone_digits phone : all_digits (sanitizePhone phone) = true.
Proof. apply strip_88_digits, remove_non_digits_digits. Qed.

Lemma remove_non_digits_id s :
  all_digits s = true → remove_non_digits s = s.
Proof.
  induction s as [|c s IH]; [done|]. cbn.
  intros [Hc Hs]%andb_true_iff. rewrite Hc. by rewrite IH.
Qed.

Lemma isValidPhone_digits s :
  all_digits s = true → isValidPhone s = local_number s.
Proof.
  destruct s as [|c0 [|c1 [|c2 s]]]; try done.
  intros [H0 _]%andb_true_iff. unfold isValidPhone.
  destruct (Ascii.eqb_spec c0 "+"%char) as [->|]; [|done].
  by vm_compute in H0.
Qed.

Lemma local_number_shape s :
  local_number s = true →
  String.length s = 11%nat
  ∧ all_digits s = true
  ∧ ∃ c rest, s = String "0"%char (String "1"%char (String c rest))
              ∧ is_3_to_9 c = true.
Proof.
  destruct s as [|c0 [|c1 [|c2 s]]]; try done. cbn.
  intros H. repeat (apply andb_true_iff in H as [H ?]).
  apply Ascii.eqb_eq in H as ->.
  match goal with H : Ascii.eqb c1 _ = true |- _ =>
    apply Ascii.eqb_eq in H as -> end.
  match goal with H : (_ =? _)%nat = true |- _ =>
    apply Nat.eqb_eq in H end.
  split_and!.
  - lia.
  - assert (is_digit c2 = true) as Hd.
    { unfold is_3_to_9, is_digit in *.
      match goal with H : (_ && _) = true |- _ =>
        apply andb_true_iff in H as [Ha Hb] end.
      apply andb_true_iff. split; [|done].
      apply Nat.leb_le. apply Nat.leb_le in Ha. lia. }
    cbn [all_digits].
    match goal with H : all_digits s = true |- _ => rewrite H end.
    rewrite Hd. vm_compute. reflexivity.
  - by eexists _, _.
Qed.

(** X12.  Whatever text is submitted as phone, when [isValidPhone]
    accepts the result of [sanitizePhone] that result is an 11-digit
    string that begins with 01 followed by a digit from 3 to 9: the
    [+88] form of the pattern is never met after sanitizing, and every
    phone that passes the two functions has this one shape. *)
Theorem sanitized_valid_phone_shape phone :
  isValidPhone (sanitizePhone phone) = true →
  String.length (sanitizePhone phone) = 11%nat
  ∧ all_digits (sanitizePhone phone) = true
  ∧ ∃ c rest,
      sanitizePhone phone = String "0"%char (String "1"%char (String c rest))
      ∧ is_3_to_9 c = true.
Proof.
  rewrite isValidPhone_digits by apply sanitizePhone_digits.
  apply local_number_shape.
Qed.

Lemma sanitized_valid_phone_shape_witness :
  sanitizePhone "+880 1712-345678" = "01712345678"
  ∧ String.length (sanitizePhone "+880 1712-345678") = 11%nat.
Proof.
  split; [vm_compute; reflexivity|].
  apply sanitized_valid_phone_shape. vm_compute. reflexivity.
Defined.

(** X13.  A local number [n] (01, a digit from 3 to 9, eight digits) is
    accepted as it is and with [+88] in front, and [sanitizePhone] maps
    every way of writing it to [n]: any text whose digits are [n], or 88
    followed by [n], whatever separators, spaces or signs it contains. *)
Theorem sanitizePhone_normalizes n phone :
  local_number n = true →
  remove_non_digits phone = n ∨ remove_non_digits phone = "88" +:+ n →
  sanitizePhone phone = n
  ∧ isValidPhone (sanitizePhone phone) = true
  ∧ isValidPhone n = true
  ∧ isValidPhone ("+88" +:+ n) = true.
Proof.
  intros Hn Hdigits.
  destruct (local_number_shape n Hn) as (_ & Hd & c & rest & -> & Hc).
  assert (sanitizePhone phone = String "0"%char (String "1"%char (String c rest)))
    as Hs.
  { unfold sanitizePhone. by destruct Hdigits as [-> | ->]. }
  rewrite Hs. split_and!; [done | | | done].
  - by rewrite isValidPhone_digits.
  - by rewrite isValidPhone_digits.
Qed.

Lemma sanitizePhone_normalizes_witness :
  sanitizePhone "(+88) 017-1234-5678" = "01712345678"
  ∧ isValidPhone "+8801712345678" = true.
Proof.
  destruct (sanitizePhone_normalizes "01712345678" "(+88) 017-1234-5678")
    as (Hs & _ & _ & Hv).
  - vm_compute. reflexivity.
  - right. vm_compute. reflexivity.
  - split; [exact Hs | exact Hv].
Defined.

End PhoneFacts.

(** ** OTP service: further properties *)

Section OtpMore.
Import Otp.
Implicit Types (docs : list OtpDoc) (d : OtpDoc).

Lemma OTP_deleteMany_no_key ph pu docs :
  Forall (λ d, ¬ (phone d = ph ∧ purpose d = pu)) (OTP_deleteMany ph pu docs).
Proof.
  unfold OTP_deleteMany. apply Forall_forall.
  by intros d [Hd _]%list_elem_of_filter.
Qed.

Lemma saveOTP_valid now code ph pu docs :
  ph ≠ EmptyString → code ≠ EmptyString → pu ∈ purposes →
  saveOTP now code ph pu docs
  = (Some code,
     OTP_deleteMany ph pu docs
     ++ [mkOtpDoc ph code pu (now + 5 * 60 * 1000) false 0]).
Proof.
  intros Hph Hcode Hpu. unfold saveOTP, OTP_create.
  cbn [phone otp purpose].
  rewrite (bool_decide_eq_false_2 (ph = EmptyString)) by done.
  rewrite (bool_decide_eq_false_2 (code = EmptyString)) by done.
  by rewrite (bool_decide_eq_true_2 (pu ∈ purposes)).
Qed.

Lemma saveOTP_Some now code ph pu docs c docs' :
  saveOTP now code ph pu docs = (Some c, docs') →
  c = code
  ∧ docs' = OTP_deleteMany ph pu docs
            ++ [mkOtpDoc ph code pu (now + 5 * 60 * 1000) false 0]
  ∧ code ≠ EmptyString ∧ ph ≠ EmptyString ∧ pu ∈ purposes.
Proof.
  unfold saveOTP, OTP_create. cbn [phone otp purpose].
  repeat case_bool_decide; cbn; try done.
  by intros [= <- <-].
Qed.

Lemma verifyOTP_issued_live now code ph pu docs now' :
  now' < now + 300000 →
  (verifyOTP now' ph code pu
     (OTP_deleteMany ph pu docs
      ++ [mkOtpDoc ph code pu (now + 5 * 60 * 1000) false 0])).1
  = mkResult true None.
Proof.
  intros Hlive.
  pose proof (OTP_deleteMany_no_key ph pu docs) as Hold.
  set (old := OTP_deleteMany ph pu docs) in *.
  set (new := mkOtpDoc ph code pu (now + 5 * 60 * 1000) false 0).
  unfold verifyOTP.
  assert (list_find (matches now' ph code pu) (old ++ [new])
          = Some (length old, new)) as ->.
  { apply list_find_Some. split_and!.
    - by rewrite lookup_app_r, Nat.sub_diag.
    - unfold matches, new. cbn. split_and!; try done. lia.
    - intros j y Hj Hlt (Hp & _ & Hu & _).
      rewrite lookup_app_l in Hj by done.
      rewrite Forall_lookup in Hold. by apply (Hold _ _ Hj). }
  done.
Qed.

(** X14.  A code that [saveOTP] has stored verifies once at any time
    before five minutes have passed since the issue, and from then on is
    answered "Invalid or expired OTP" without any write. *)
Theorem issued_code_valid_five_minutes now code ph pu docs now' :
  ph ≠ EmptyString → code ≠ EmptyString → pu ∈ purposes →
  (saveOTP now code ph pu docs).1 = Some code
  ∧ (now' < now + 300000 →
     (verifyOTP now' ph code pu (saveOTP now code ph pu docs).2).1
     = mkResult true None)
  ∧ (now + 300000 <= now' →
     verifyOTP now' ph code pu (saveOTP now code ph pu docs).2
     = (invalid_or_expired, (saveOTP now code ph pu docs).2)).
Proof.
  intros Hph Hcode Hpu. rewrite (saveOTP_valid now code ph pu docs) by done.
  cbn [fst snd]. split; [done|].
  split; [apply verifyOTP_issued_live|].
  pose proof (OTP_deleteMany_no_key ph pu docs) as Hold.
  intros Hdead. apply verifyOTP_not_found, list_find_None.
  apply Forall_app. split.
  + eapply Forall_impl; [exact Hold|]. cbn.
    intros d Hd (Hp & _ & Hu & _). by apply Hd.
  + repeat constructor. unfold matches. cbn.
    intros (_ & _ & _ & _ & Hexp). lia.
Qed.

Lemma issued_code_valid_five_minutes_witness :
  (verifyOTP 299999 "01712345678" "123456" "login" Scenario.otp_issued).1
  = mkResult true None
  ∧ (verifyOTP 300000 "01712345678" "123456" "login"
               Scenario.otp_issued).1
    = invalid_or_expired.
Proof.
  assert ("login" ∈ purposes) as Hpu
    by (unfold purposes; rewrite !elem_of_cons; auto).
  destruct (issued_code_valid_five_minutes 0 "123456" "01712345678"
              "login" [] 299999) as (_ & Hlive & _); [done..|].
  destruct (issued_code_valid_five_minutes 0 "123456" "01712345678"
              "login" [] 300000) as (_ & _ & Hdead); [done..|].
  split.
  - apply Hlive. lia.
  - unfold Scenario.otp_issued. rewrite Hdead by lia. reflexivity.
Defined.

(** X15.  Issuing a new code for a phone and purpose invalidates the
    code issued before: after [saveOTP], a verify call for that phone
    and purpose with any other code than the new one is answered
    "Invalid or expired OTP" and writes nothing. *)
Theorem reissue_supersedes_previous_code now code ph pu docs now' code' :
  code' ≠ code →
  verifyOTP now' ph code' pu (saveOTP now code ph pu docs).2
  = (invalid_or_expired, (saveOTP now code ph pu docs).2).
Proof.
  intros Hne. apply verifyOTP_wrong_code.
  pose proof (OTP_deleteMany_no_key ph pu docs) as Hold.
  assert (Forall (λ d, phone d = ph → purpose d = pu → otp d ≠ code')
                 (OTP_deleteMany ph pu docs)) as Hold'.
  { eapply Forall_impl; [exact Hold|]. cbn. intros d Hd Hp Hu.
    destruct Hd. done. }
  destruct (saveOTP_docs now code ph pu docs) as [-> | ->]; [done|].
  apply Forall_app. split; [done|]. repeat constructor. cbn. congruence.
Qed.

Lemma reissue_supersedes_previous_code_witness :
  (verifyOTP 2000 "01712345678" "123456" "login"
     (saveOTP 1000 "654321" "01712345678" "login"
              Scenario.otp_issued).2).1
  = invalid_or_expired.
Proof.
  rewrite (reissue_supersedes_previous_code 1000 "654321" "01712345678"
             "login" Scenario.otp_issued 2000 "123456"); [reflexivity|].
  discriminate.
Defined.

(** X16.  The collection never holds two codes for one phone and
    purpose: after any sequence of issue, verify and expiry calls from
    the empty collection, two rows with the same phone and purpose are
    the same row. *)
Theorem otp_single_active_code ops i j d1 d2 :
  run ops [] !! i = Some d1 →
  run ops [] !! j = Some d2 →
  phone d1 = phone d2 → purpose d1 = purpose d2 →
  i = j.
Proof.
  intros Hi Hj Hp Hu.
  assert (one_per_key (run ops [])) as Hnd
    by (apply one_per_key_run; constructor).
  unfold one_per_key in Hnd.
  eapply (NoDup_lookup _ i j (phone d1, purpose d1) Hnd);
    rewrite list_lookup_fmap.
  - by rewrite Hi.
  - by rewrite Hj; cbn; rewrite Hp, Hu.
Qed.

Lemma otp_single_active_code_witness :
  ∃ d,
    run [Issue 0 "111111" "01712345678" "login";
         Issue 10 "222222" "01712345678" "login";
         Issue 20 "333333" "01712345678" "signup"] [] !! 0%nat = Some d
    ∧ otp d = "222222"
    ∧ (0 = 0)%nat.
Proof.
  exists (mkOtpDoc "01712345678" "222222" "login" 300010 false 0).
  split; [vm_compute; reflexivity|]. split; [reflexivity|].
  apply (otp_single_active_code
           [Issue 0 "111111" "01712345678" "login";
            Issue 10 "222222" "01712345678" "login";
            Issue 20 "333333" "01712345678" "signup"]
           0 0
           (mkOtpDoc "01712345678" "222222" "login" 300010 false 0)
           (mkOtpDoc "01712345678" "222222" "login" 300010 false 0));
    reflexivity.
Defined.

(** X17.  Codes of one purpose do not verify under another, and a
    verify call touches no row of another phone or purpose: when the
    collection has no row for the phone under the purpose asked, the
    call is answered "Invalid or expired OTP" whatever rows the phone has
    under other purposes; and in every case each row of another phone or
    purpose is still in the collection after the call. *)
Theorem verifyOTP_purpose_isolation now ph code pu docs :
  (Forall (λ d, phone d = ph → purpose d ≠ pu) docs →
   verifyOTP now ph code pu docs = (invalid_or_expired, docs))
  ∧ (∀ d, d ∈ docs → ¬ (phone d = ph ∧ purpose d = pu) →
          d ∈ (verifyOTP now ph code pu docs).2).
Proof.
  split.
  - intros Hall. apply verifyOTP_wrong_code.
    eapply Forall_impl; [exact Hall|]. cbn. intros d Hd Hp Hu.
    by destruct (Hd Hp).
  - intros d Hin Hkey. unfold verifyOTP.
    destruct (list_find _ _) as [[i x]|] eqn:Hfind; [|done].
    apply list_find_Some in Hfind as (Hi & (Hp & _ & Hu & _) & _).
    apply list_elem_of_lookup in Hin as [j Hj].
    assert (i ≠ j) as Hne.
    { intros <-. rewrite Hi in Hj. injection Hj as <-. by apply Hkey. }
    case_match; cbn [snd].
    + apply list_elem_of_lookup.
      destruct (decide (j < i)%nat).
      * exists j. by rewrite list_lookup_delete_lt.
      * exists (pred j). rewrite list_lookup_delete_ge by lia.
        by replace (S (pred j)) with j by lia.
    + apply list_elem_of_lookup. exists j.
      by rewrite list_lookup_insert_ne.
Qed.

Lemma verifyOTP_purpose_isolation_witness :
  verifyOTP 1000 "01712345678" "123456" "signup" Scenario.otp_issued
  = (invalid_or_expired, Scenario.otp_issued).
Proof.
  apply verifyOTP_purpose_isolation.
  vm_compute. repeat constructor. intros _. discriminate.
Defined.

End OtpMore.

(** ** OTP routes *)

Section AuthRouteFacts.
Import Otp Phone AuthRoutes.
Implicit Types (db : AuthDb).

Lemma truthy_str_Some (s : option string) :
  truthy_str s = true → ∃ x, s = Some x ∧ x ≠ EmptyString.
Proof.
  destruct s as [x|]; [|done]. cbn. case_bool_decide; [done|]. eauto.
Qed.

(** What an answer 200 of [sendOtp] tells. *)
Lemma sendOtp_ok development now code phone purpose db :
  res_status (sendOtp development now code phone purpose db).1 = 200 →
  ∃ ph pu,
    phone = Some ph ∧ purpose = Some pu
    ∧ isValidPhone (sanitizePhone ph) = true
    ∧ pu ∈ purposes
    ∧ code ≠ EmptyString
    ∧ (pu = "signup" →
       Forall (λ u, u_phone u ≠ sanitizePhone ph) (users db))
    ∧ (pu ≠ "signup" → ∃ u, u ∈ users db ∧ u_phone u = sanitizePhone ph)
    ∧ (sendOtp development now code phone purpose db).2
      = mkAuthDb (users db)
          (OTP_deleteMany (sanitizePhone ph) pu (otps db)
           ++ [mkOtpDoc (sanitizePhone ph) code pu (now + 5 * 60 * 1000)
                        false 0]).
Proof.
  unfold sendOtp.
  destruct (truthy_str phone) eqn:Hph; [|done].
  destruct (truthy_str purpose) eqn:Hpu; [|done]. cbn [negb orb].
  apply truthy_str_Some in Hph as (ph & -> & _).
  apply truthy_str_Some in Hpu as (pu & -> & _).
  change (default EmptyString (Some ph)) with ph.
  change (default EmptyString (Some pu)) with pu.
  destruct (isValidPhone (sanitizePhone ph)) eqn:Hvalid; cbn [negb];
    [|done].
  destruct (list_find _ (users db)) as [[i u]|] eqn:Hfind.
  - rewrite (bool_decide_eq_true_2 (is_Some (Some (i, u))))
      by (eexists; reflexivity).
    case_bool_decide as Hsignup; cbn [andb negb]; [done|].
    rewrite andb_false_r.
    destruct (saveOTP _ _ _ _ _) as [[c|] docs'] eqn:Hsave; [|done].
    intros _. apply saveOTP_Some in Hsave as (-> & -> & Hcode & _ & Hin).
    apply list_find_Some in Hfind as (Hi & Hu & _).
    exists ph, pu. split_and!; try done.
    intros _. exists u. split; [|done]. apply list_elem_of_lookup. eauto.
  - rewrite (bool_decide_eq_false_2 (is_Some None)) by by intros [? ?].
    rewrite andb_false_r. cbn [negb]. rewrite andb_true_r.
    destruct (bool_decide (pu = "login") || bool_decide (pu = "reset"))
      eqn:Hlr; [done|].
    destruct (saveOTP _ _ _ _ _) as [[c|] docs'] eqn:Hsave; [|done].
    intros _. apply saveOTP_Some in Hsave as (-> & -> & Hcode & _ & Hin).
    apply list_find_None in Hfind.
    exists ph, pu. split_and!; try done.
    intros Hns. exfalso. apply orb_false_iff in Hlr as [Hl Hr].
    apply bool_decide_eq_false in Hl. apply bool_decide_eq_false in Hr.
    unfold purposes in Hin. rewrite !elem_of_cons in Hin.
    destruct Hin as [?|[?|[?|Hnil]]]; try done.
    by apply elem_of_nil in Hnil.
Qed.

(** X18.  [POST /auth/send-otp] stores a code only for a phone that
    sanitizes to a valid number and matches the purpose: not registered
    for signup, registered for login and reset.  It answers 200 only
    then; on its 400 and 404 answers neither the users nor the OTP
    collection changes, and it never changes the users. *)
Theorem sendOtp_issues_only_for_matching_account
    development now code phone purpose db :
  let run := sendOtp development now code phone purpose db in
  users run.2 = users db
  ∧ (res_status run.1 = 400 ∨ res_status run.1 = 404 → run.2 = db)
  ∧ (res_status run.1 = 200 →
     ∃ ph pu,
       phone = Some ph ∧ purpose = Some pu
       ∧ isValidPhone (sanitizePhone ph) = true
       ∧ pu ∈ purposes
       ∧ (pu = "signup" →
          Forall (λ u, u_phone u ≠ sanitizePhone ph) (users db))
       ∧ (pu ≠ "signup" →
          ∃ u, u ∈ users db ∧ u_phone u = sanitizePhone ph)).
Proof.
  intros run. split_and!.
  - unfold run, sendOtp. repeat case_match; done.
  - unfold run, sendOtp. repeat case_match; cbn; try done;
      intros [?|?]; done.
  - intros Hok. destruct (sendOtp_ok _ _ _ _ _ _ Hok)
      as (ph & pu & ? & ? & ? & ? & _ & ? & ? & _).
    exists ph, pu. split_and!; done.
Qed.

Lemma sendOtp_issues_only_for_matching_account_witness :
  res_status (sendOtp false 0 "123456" (Some "+880 1712-345678")
                      (Some "login") AuthScenario.db_rahim).1 = 200
  ∧ res_status (sendOtp false 0 "123456" (Some "+880 1712-345678")
                        (Some "signup") AuthScenario.db_rahim).1 = 400
  ∧ ∃ u, u ∈ users AuthScenario.db_rahim ∧ u_phone u = "01712345678".
Proof.
  assert (res_status (sendOtp false 0 "123456" (Some "+880 1712-345678")
                        (Some "login") AuthScenario.db_rahim).1 = 200)
    as Hok by (vm_compute; reflexivity).
  split; [exact Hok|]. split; [vm_compute; reflexivity|].
  destruct (sendOtp_issues_only_for_matching_account false 0 "123456"
              (Some "+880 1712-345678") (Some "login")
              AuthScenario.db_rahim) as (_ & _ & H).
  destruct (H Hok) as (ph & pu & [= <-] & [= <-] & _ & _ & _ & Hu).
  apply Hu. discriminate.
Defined.

(** X19.  A code sent by [POST /auth/send-otp] is accepted by
    [POST /auth/verify-otp] for the same purpose at any time before five
    minutes have passed, however the phone is written in the second
    request, as long as it sanitizes to the same number. *)
Theorem sent_otp_verifies_in_any_format
    development now code phone purpose db now' phone' :
  res_status (sendOtp development now code phone purpose db).1 = 200 →
  now' < now + 300000 →
  sanitizePhone <$> Some phone' = sanitizePhone <$> phone →
  res_status
    (verifyOtp now' (Some phone') (Some code) purpose
               (sendOtp development now code phone purpose db).2).1
  = 200.
Proof.
  intros Hok Hlive Hsame.
  destruct (sendOtp_ok _ _ _ _ _ _ Hok)
    as (ph & pu & -> & -> & Hvalid & Hpu & Hcode & _ & _ & Hdb).
  assert (pu ≠ EmptyString) as Hpune.
  { intros ->. unfold purposes in Hpu. rewrite !elem_of_cons in Hpu.
    destruct Hpu as [?|[?|[?|Hnil]]]; try done.
    by apply elem_of_nil in Hnil. }
  assert (sanitizePhone phone' = sanitizePhone ph) as Hs
    by (by injection Hsame).
  clear Hsame. rename Hs into Hsame.
  assert (phone' ≠ EmptyString) as Hph'.
  { intros ->. rewrite <- Hsame in Hvalid. by vm_compute in Hvalid. }
  rewrite Hdb. unfold verifyOtp. cbn [truthy_str].
  rewrite !bool_decide_eq_false_2 by done. cbn [negb orb otps].
  change (default EmptyString (Some phone')) with phone'.
  change (default EmptyString (Some code)) with code.
  change (default EmptyString (Some pu)) with pu.
  rewrite Hsame.
  pose proof (verifyOTP_issued_live now code (sanitizePhone ph) pu
                (otps db) now' Hlive) as Hv.
  destruct (verifyOTP _ _ _ _ _) as [result docs]. cbn in Hv.
  by rewrite Hv.
Qed.

Lemma sent_otp_verifies_in_any_format_witness :
  res_status
    (verifyOtp 299999 (Some "01712-345678") (Some "123456") (Some "login")
       (sendOtp false 0 "123456" (Some "+880 1712-345678") (Some "login")
                AuthScenario.db_rahim).2).1
  = 200.
Proof.
  apply sent_otp_verifies_in_any_format.
  - vm_compute. reflexivity.
  - lia.
  - vm_compute. reflexivity.
Defined.

End AuthRouteFacts.

(** ** The rate limiters on their shared store *)

Section RateLimitMore.
Import RateLimit.
Implicit Types (store : gmap string RateData).

Lemma spec_window_count_fresh opts now (entry : option RateData) :
  (∀ e, entry = Some e → count e <= 1) →
  count (spec_window opts now entry) <= 2.
Proof.
  intros Hle. destruct entry as [e|]; cbn; [|lia].
  destruct (now - resetTime e >? windowMs opts); cbn; [lia|].
  specialize (Hle e eq_refl). lia.
Qed.

(** X20.  The limiters count on one store: a request of a client
    through one limiter is counted by every other limiter too.  When the
    entry of the client is live under both windows, a request through
    one limiter followed by a request through another leaves the count
    two higher, in the same window, and the second request is rejected
    exactly when that count is above the second limiter's [max]. *)
Theorem limiters_share_one_counter opts1 opts2 key now now' store e :
  store !! key = Some e →
  now - resetTime e <= windowMs opts1 →
  now' - resetTime e <= windowMs opts2 →
  let first := rateLimit opts1 key now store in
  let second := rateLimit opts2 key now' first.2 in
  second.2 !! key = Some (mkRateData (count e + 2) (resetTime e))
  ∧ ((∃ res, second.1 = Rejected res) ↔ count e + 2 > max opts2).
Proof.
  intros Hkey Hlive1 Hlive2 first second.
  assert (first.2 !! key = Some (mkRateData (count e + 1) (resetTime e)))
    as Hfirst.
  { unfold first. rewrite rateLimit_entry, Hkey. cbn.
    destruct (Z.gtb_spec (now - resetTime e) (windowMs opts1));
      [lia | done]. }
  assert (spec_window opts2 now' (first.2 !! key)
          = mkRateData (count e + 2) (resetTime e)) as Hsecond.
  { rewrite Hfirst. cbn.
    destruct (Z.gtb_spec (now' - resetTime e) (windowMs opts2)); [lia|].
    f_equal. lia. }
  split.
  - unfold second. by rewrite rateLimit_entry, Hsecond.
  - unfold second. rewrite rateLimit_outcome. cbn zeta. rewrite Hsecond.
    cbn [count resetTime].
    destruct (Z.gtb_spec (count e + 2) (max opts2)).
    + split; [lia | eauto].
    + split; [by intros [res ?] | lia].
Qed.

Lemma limiters_share_one_counter_witness :
  (rateLimit loginRateLimit "10.0.0.1" 4000
     (rateLimit otpRateLimit "10.0.0.1" 3000
                Scenario.store_after_three).2).2 !! "10.0.0.1"
  = Some (mkRateData 5 0)
  ∧ (rateLimit loginRateLimit "10.0.0.1" 4000
       (rateLimit otpRateLimit "10.0.0.1" 3000
                  Scenario.store_after_three).2).1
    = Next 5 0 900000.
Proof.
  destruct (limiters_share_one_counter otpRateLimit loginRateLimit
              "10.0.0.1" 3000 4000 Scenario.store_after_three
              (mkRateData 3 0)) as [Hentry _].
  - vm_compute. reflexivity.
  - vm_compute. discriminate.
  - vm_compute. discriminate.
  - split; [exact Hentry | vm_compute; reflexivity].
Defined.

(** X21.  The clean-up loop of a limiter deletes the entries of all
    clients by its own window, so a limiter with a short window makes
    the others forget.  When the entry of a client is older than the
    window of the limiter that serves a request (of that client or of
    any other), the entry of the client is dropped or restarted, and the
    next request of the client through any limiter with [max] of 2 or
    more is admitted, whatever count the entry had and however long the
    window of that limiter is. *)
Theorem short_window_limiter_resets_the_others
    opts1 opts2 key k now now' store e :
  store !! k = Some e →
  now - resetTime e > windowMs opts1 →
  2 <= max opts2 →
  let store' := (rateLimit opts1 key now store).2 in
  (k ≠ key → store' !! k = None)
  ∧ (k = key → store' !! k = Some (mkRateData 1 now))
  ∧ ∃ remaining resetAt,
      (rateLimit opts2 k now' store').1
      = Next (max opts2) remaining resetAt
      ∧ max opts2 - 2 <= remaining.
Proof.
  intros Hk Hold Hmax store'.
  assert (k ≠ key → store' !! k = None) as Hother.
  { intros Hne. unfold store'.
    rewrite rateLimit_other, cleanup_lookup, Hk by done.
    destruct (Z.gtb_spec (now - resetTime e) (windowMs opts1));
      [done | lia]. }
  assert (k = key → store' !! k = Some (mkRateData 1 now)) as Hsame.
  { intros ->. unfold store'. rewrite rateLimit_entry, Hk. cbn.
    destruct (Z.gtb_spec (now - resetTime e) (windowMs opts1));
      [done | lia]. }
  split_and!; [done..|].
  rewrite rateLimit_outcome. cbn zeta.
  assert (count (spec_window opts2 now' (store' !! k)) <= 2) as Hcount.
  { apply spec_window_count_fresh. intros e' He'.
    destruct (decide (k = key)) as [Heq|Hne].
    - rewrite (Hsame Heq) in He'. injection He' as <-. cbn. lia.
    - by rewrite (Hother Hne) in He'. }
  destruct (Z.gtb_spec (count (spec_window opts2 now' (store' !! k)))
                       (max opts2)); [lia|].
  eexists _, _. split; [reflexivity|]. lia.
Qed.

Lemma short_window_limiter_resets_the_others_witness :
  (∃ res,
     (rateLimit loginRateLimit "10.0.0.1" 300002
                {[ "10.0.0.1" := mkRateData 6 0 ]}).1 = Rejected res)
  ∧ (rateLimit loginRateLimit "10.0.0.1" 300002
       (rateLimit otpRateLimit "10.0.0.2" 300001
                  {[ "10.0.0.1" := mkRateData 6 0 ]}).2).1
    = Next 5 4 1200002.
Proof.
  split; [eexists; vm_compute; reflexivity|].
  destruct (short_window_limiter_resets_the_others otpRateLimit
              loginRateLimit "10.0.0.2" "10.0.0.1" 300001 300002
              {[ "10.0.0.1" := mkRateData 6 0 ]} (mkRateData 6 0))
    as (_ & _ & remaining & resetAt & Hnext & _).
  - vm_compute. reflexivity.
  - vm_compute. reflexivity.
  - vm_compute. discriminate.
  - rewrite Hnext. vm_compute in Hnext. by injection Hnext as <- <-.
Defined.

End RateLimitMore.

(** ** Sequences of review requests *)

Section ReviewMore.
Import Reviews ReviewRuns.
Implicit Types (db : Db) (rs : list Review).

Lemma moderateReview_store now reviewId status adminResponse db :
  (moderateReview now reviewId status adminResponse db).2 = db
  ∨ ∃ i old,
      reviews db !! i = Some old
      ∧ status ∈ ["approved"; "rejected"]
      ∧ let rs' := <[i := moderated now status adminResponse old]>
                     (reviews db) in
        (moderateReview now reviewId status adminResponse db).2
        = if bool_decide (status = "approved")
          then updateProductRating (FromDocument (r_product old))
                 (mkDb (products db) (orders db) rs')
          else mkDb (products db) (orders db) rs'.
Proof.
  unfold moderateReview. case_bool_decide as Hst; cbn [negb]; [|by left].
  destruct (list_find _ _) as [[i old]|] eqn:Hfind; [|by left].
  apply list_find_Some in Hfind as (Hi & _ & _).
  right. exists i, old. split_and!; done.
Qed.

Lemma review_store_ok_snoc rs r :
  review_store_ok rs →
  (r_product r, r_user r) ∉ (λ r, (r_product r, r_user r)) <$> rs →
  1 <= r_rating r <= 5 → r_status r ∈ reviewStatuses →
  review_store_ok (rs ++ [r]).
Proof.
  intros [Hnd Hall] Hnew Hrating Hst. split.
  - rewrite fmap_app. apply NoDup_app. split_and!; [done | |].
    + intros k Hk Hk'. cbn in Hk'. apply list_elem_of_singleton in Hk'.
      by subst.
    + cbn. apply NoDup_singleton.
  - apply Forall_app. split; [done|]. apply Forall_singleton. done.
Qed.

Lemma review_store_ok_moderated rs i old now status adminResponse :
  review_store_ok rs → rs !! i = Some old →
  status ∈ ["approved"; "rejected"] →
  review_store_ok (<[i := moderated now status adminResponse old]> rs).
Proof.
  intros [Hnd Hall] Hi Hst. split.
  - rewrite list_fmap_insert. cbn. by rewrite list_insert_id
      by (by rewrite list_lookup_fmap, Hi).
  - apply Forall_insert; [done|]. cbn. split.
    + rewrite Forall_lookup in Hall. by destruct (Hall _ _ Hi).
    + unfold reviewStatuses. rewrite !elem_of_cons in Hst.
      rewrite !elem_of_cons.
      destruct Hst as [->|[->|Hnil]]; [by right; left | by do 2 right; left |].
      by apply elem_of_nil in Hnil.
Qed.

Lemma createReview_review_store_ok newId userId req db :
  review_store_ok (reviews db) →
  review_store_ok (reviews (createReview newId userId req db).2).
Proof.
  intros Hok. unfold createReview.
  destruct (rq_productId req) as [productId|]; [|done].
  destruct (rq_rating req) as [rating|]; [|done].
  destruct (rq_comment req) as [comment|]; [|done].
  destruct (_ || _); [done|].
  destruct (Z.ltb_spec rating 1); [done|].
  destruct (Z.gtb_spec rating 5); [done|]. cbn [orb].
  destruct (list_find _ _) eqn:Hfind; [done|]. cbn [snd].
  rewrite updateProductRating_FromRequest. cbn [reviews].
  apply review_store_ok_snoc; cbn; [done | | lia |].
  - rewrite list_find_None, Forall_forall in Hfind.
    intros (r & [= Hp Hu] & Hin)%list_elem_of_fmap.
    by apply (Hfind r Hin).
  - unfold reviewStatuses. by left.
Qed.

Lemma step_review_store_ok op db :
  review_store_ok (reviews db) → review_store_ok (reviews (step op db)).
Proof.
  intros Hok. destruct op; cbn [step].
  - by apply createReview_review_store_ok.
  - destruct (moderateReview_store now reviewId status adminResponse db)
      as [-> | (i & old & Hi & Hst & Hdb)]; [done|].
    cbn zeta in Hdb. rewrite Hdb.
    case_bool_decide;
      rewrite ?(proj1 (updateProductRating_reviews _ _)); cbn [reviews];
      by apply review_store_ok_moderated.
Qed.

(** X22.  A user has at most one review of a product, and the stored
    reviews keep to the schema: when the ratings in the store are from 1
    to 5, the statuses are pending, approved or rejected and no two
    reviews have the same product and user, this is still so after any
    sequence of review submissions and moderations. *)
Theorem reviews_one_per_user_and_product ops db :
  review_store_ok (reviews db) →
  review_store_ok (reviews (run ops db)).
Proof.
  unfold run. revert db.
  induction ops as [|op ops IH]; intros db Hok; cbn [fold_left]; [done|].
  by apply IH, step_review_store_ok.
Qed.

Lemma reviews_one_per_user_and_product_witness :
  review_store_ok
    (reviews (run [CreateReview "r1" "u1" (Scenario.review_of "p1" 5);
                   CreateReview "r2" "u1" (Scenario.review_of "p1" 1)]
                  Scenario.db_widget))
  ∧ length
      (reviews (run [CreateReview "r1" "u1" (Scenario.review_of "p1" 5);
                     CreateReview "r2" "u1" (Scenario.review_of "p1" 1)]
                    Scenario.db_widget)) = 1%nat.
Proof.
  split; [|vm_compute; reflexivity].
  apply reviews_one_per_user_and_product.
  split; cbn; constructor.
Defined.

(** *** The rating fields of the products *)

Lemma sum_ratings_range rs :
  Forall (λ r, 1 <= r_rating r <= 5) rs →
  Z.of_nat (length rs) <= sum_ratings rs <= 5 * Z.of_nat (length rs).
Proof.
  induction 1 as [|r rs Hr _ IH]; cbn [sum_ratings foldr length]; [lia|].
  fold (sum_ratings rs). lia.
Qed.

Lemma Math_round_range (q : Q) (a b : Z) :
  (inject_Z a <= q)%Q → (q <= inject_Z b)%Q → a <= Math_round q <= b.
Proof.
  intros Ha Hb. destruct (Math_round_nearest q) as [Hlo Hhi].
  split; apply Z.lt_succ_r; rewrite Zlt_Qlt; unfold Z.succ;
    rewrite inject_Z_plus; change (inject_Z 1) with 1%Q; lra.
Qed.

Lemma rating_of_range matched :
  matched ≠ [] →
  Forall (λ r, 1 <= r_rating r <= 5) matched →
  (1 <= rating_of matched)%Q ∧ (rating_of matched <= 5)%Q.
Proof.
  intros Hne Hall. pose proof (sum_ratings_range matched Hall) as [Hlo Hhi].
  assert (0 < Z.of_nat (length matched)) as Hn
    by (destruct matched; [done | cbn; lia]).
  unfold rating_of.
  set (S := sum_ratings matched) in *.
  set (n := Z.of_nat (length matched)) in *.
  assert (0 < inject_Z n)%Q as Hnq
    by (change 0%Q with (inject_Z 0); by rewrite <- Zlt_Qlt).
  assert (1 <= inject_Z S / inject_Z n)%Q as H1.
  { apply Qle_shift_div_l; [done|]. rewrite Qmult_1_l.
    by rewrite <- Zle_Qle. }
  assert (inject_Z S / inject_Z n <= 5)%Q as H5.
  { apply Qle_shift_div_r; [done|].
    change 5%Q with (inject_Z 5). rewrite <- inject_Z_mult.
    by rewrite <- Zle_Qle. }
  destruct (Math_round_range (inject_Z S / inject_Z n * inject_Z 10) 10 50)
    as [Hr10 Hr50].
  { change (inject_Z 10) with 10%Q. lra. }
  { change (inject_Z 10) with 10%Q. change (inject_Z 50) with 50%Q. lra. }
  set (t := Math_round _) in *.
  split.
  - apply Qle_shift_div_l; [done|]. rewrite Qmult_1_l.
    by rewrite <- Zle_Qle.
  - apply Qle_shift_div_r; [done|].
    change 5%Q with (inject_Z 5). rewrite <- inject_Z_mult.
    by rewrite <- Zle_Qle.
Qed.

Lemma rated_from_refl p : rated_from p p.
Proof. exists (p_rating p), (p_reviewCount p). by destruct p; auto. Qed.

Lemma rated_from_trans p1 p2 p3 :
  rated_from p1 p2 → rated_from p2 p3 → rated_from p1 p3.
Proof.
  intros (r1 & c1 & -> & H1) (r2 & c2 & -> & H2).
  exists r2, c2. split; [done|]. cbn in H2.
  destruct H2 as [[-> ->]|H2]; [done | by right].
Qed.

Lemma products_rated_refl (ps : gmap ObjectId Product) id :
  option_Forall2 rated_from (ps !! id) (ps !! id).
Proof.
  destruct (ps !! id); constructor. apply rated_from_refl.
Qed.

Lemma products_rated_trans (o1 o2 o3 : option Product) :
  option_Forall2 rated_from o1 o2 → option_Forall2 rated_from o2 o3 →
  option_Forall2 rated_from o1 o3.
Proof.
  destruct 1; inversion 1; subst; constructor.
  by eapply rated_from_trans.
Qed.

Lemma updateProductRating_rated productId db id :
  review_store_ok (reviews db) →
  option_Forall2 rated_from
    (products db !! id)
    (products (updateProductRating (FromDocument productId) db) !! id).
Proof.
  intros [_ Hall]. rewrite updateProductRating_products.
  destruct (approved_of productId (reviews db)) as [|r matched] eqn:Happ;
    [apply products_rated_refl|].
  destruct (decide (id = productId)) as [->|Hne];
    [|rewrite lookup_alter_ne by done; apply products_rated_refl].
  rewrite lookup_alter_eq.
  destruct (products db !! productId) as [p|]; constructor.
  eexists _, _. split; [reflexivity|]. right.
  assert (Forall (λ r, 1 <= r_rating r <= 5) (r :: matched)) as Hrange.
  { rewrite <- Happ. unfold approved_of. apply Forall_forall.
    intros x [_ Hx]%list_elem_of_filter.
    rewrite Forall_forall in Hall. by destruct (Hall x Hx). }
  destruct (rating_of_range (r :: matched)) as [Hlo Hhi]; [done..|].
  split_and!; [done | done | cbn [length]; lia].
Qed.

Lemma step_rated op db id :
  review_store_ok (reviews db) →
  option_Forall2 rated_from (products db !! id)
                 (products (step op db) !! id).
Proof.
  intros Hok. pose proof (step_review_store_ok op db Hok) as Hok'.
  destruct op; cbn [step] in *.
  - destruct (createReview_store newId userId req db)
      as [[_ ->] | (productId & review & _ & _ & _ & _ & ->)];
      apply products_rated_refl.
  - destruct (moderateReview_store now reviewId status adminResponse db)
      as [-> | (i & old & Hi & Hst & Hdb)]; [apply products_rated_refl|].
    cbn zeta in Hdb. rewrite Hdb in Hok' |- *.
    case_bool_decide; [|apply products_rated_refl].
    rewrite (proj1 (updateProductRating_reviews _ _)) in Hok'.
    by apply (updateProductRating_rated (r_product old)
                (mkDb (products db) (orders db)
                   (<[i := moderated now status adminResponse old]>
                      (reviews db)))).
Qed.

(** X23.  The rating that review requests store is a rating: when the
    stored reviews keep to the schema, after any sequence of review
    submissions and moderations every product is the product before with
    at most its rating and review count replaced, the rating being
    either still the one before or between 1 and 5 with a review count
    of at least 1; no product appears or disappears, and price, stock
    and the other fields are as before. *)
Theorem product_rating_stays_in_range ops db id :
  review_store_ok (reviews db) →
  option_Forall2 rated_from (products db !! id)
                 (products (run ops db) !! id).
Proof.
  unfold run. revert db.
  induction ops as [|op ops IH]; intros db Hok; cbn [fold_left];
    [apply products_rated_refl|].
  eapply products_rated_trans; [by apply step_rated|].
  by apply IH, step_review_store_ok.
Qed.

Lemma product_rating_stays_in_range_witness :
  option_Forall2 rated_from
    (products Scenario.db_widget !! "p1")
    (products (run ReviewScenario.two_approvals Scenario.db_widget)
     !! "p1")
  ∧ (λ p, Qeq_bool (p_rating p) (9 # 2))
      <$> (products (run ReviewScenario.two_approvals Scenario.db_widget)
           !! "p1")
    = Some true.
Proof.
  split; [|vm_compute; reflexivity].
  apply product_rating_stays_in_range.
  split; cbn; constructor.
Defined.

(** *** Products without approved reviews *)

Lemma approved_of_nil productId rs :
  approved_of productId rs = []
  ↔ Forall (λ r, ¬ (r_product r = productId ∧ r_status r = "approved")) rs.
Proof.
  unfold approved_of. induction rs as [|r rs IH]; [done|].
  rewrite filter_cons, Forall_cons. destruct (decide _) as [Hr|Hr].
  - split; [done | by intros [? _]].
  - rewrite IH. split; [by split | by intros [_ ?]].
Qed.

Lemma updateProductRating_unapproved productId db id :
  approved_of id (reviews db) = [] →
  products (updateProductRating (FromDocument productId) db) !! id
  = products db !! id.
Proof.
  intros Hnone. rewrite updateProductRating_products.
  destruct (decide (productId = id)) as [->|Hne]; [by rewrite Hnone|].
  destruct (approved_of productId (reviews db)); [done|].
  by rewrite lookup_alter_ne.
Qed.

Lemma step_unapproved op db id :
  not_approval op →
  approved_of id (reviews db) = [] →
  products (step op db) !! id = products db !! id
  ∧ approved_of id (reviews (step op db)) = [].
Proof.
  intros Hop Hnone. destruct op; cbn [step not_approval] in *.
  - destruct (createReview_store newId userId req db)
      as [[_ ->] | (productId & review & _ & _ & _ & Hpending & ->)];
      [done|].
    cbn [products reviews]. split; [done|].
    by rewrite approved_of_snoc_pending.
  - destruct (moderateReview_store now reviewId status adminResponse db)
      as [-> | (i & old & Hi & Hst & Hdb)]; [done|].
    cbn zeta in Hdb. rewrite Hdb.
    rewrite bool_decide_eq_false_2 by done. cbn [products reviews].
    split; [done|]. apply approved_of_nil. apply approved_of_nil in Hnone.
    apply Forall_insert; [done|]. cbn. by intros [_ ?].
Qed.

(** X24.  A rating is never taken back: while no review is approved,
    a product that has no approved review keeps the rating and the
    review count it has, whatever reviews are submitted or rejected.  So
    the product whose last approved review is rejected still shows the
    rating of that review. *)
Theorem unapproved_product_keeps_rating ops db id :
  Forall not_approval ops →
  approved_of id (reviews db) = [] →
  products (run ops db) !! id = products db !! id
  ∧ approved_of id (reviews (run ops db)) = [].
Proof.
  unfold run. intros Hops. revert db.
  induction Hops as [|op ops Hop Hops IH]; intros db Hnone;
    cbn [fold_left]; [done|].
  destruct (step_unapproved op db id Hop Hnone) as [Hp Hnone'].
  destruct (IH _ Hnone') as [Hp' Hnone'']. split; [|done].
  by rewrite Hp'.
Qed.

Lemma unapproved_product_keeps_rating_witness :
  approved_of "p1" (reviews ReviewScenario.db_rejected) = []
  ∧ p_reviewCount
      <$> (products (run ReviewScenario.later_requests
                         ReviewScenario.db_rejected) !! "p1")
    = Some 1
  ∧ (λ p, Qeq_bool (p_rating p) 5)
      <$> (products (run ReviewScenario.later_requests
                         ReviewScenario.db_rejected) !! "p1")
    = Some true.
Proof.
  destruct (unapproved_product_keeps_rating ReviewScenario.later_requests
              ReviewScenario.db_rejected "p1") as [Hp _].
  - repeat constructor. cbn. discriminate.
  - vm_compute. reflexivity.
  - split; [vm_compute; reflexivity|].
    split.
    + etrans; [exact (f_equal (fmap p_reviewCount) Hp)|].
      vm_compute. reflexivity.
    + etrans;
        [exact (f_equal (fmap (λ p, Qeq_bool (p_rating p) 5)) Hp)|].
      vm_compute. reflexivity.
Defined.

End ReviewMore.

(** ** Pagination *)

Section PaginationFacts.
Import Pagination.

(** [Math.ceil (a / b)] for a positive [b]: the least [n] with
    [a <= n * b]. *)
Lemma Math_ceil_quotient a b :
  0 < b →
  (Math_ceil (inject_Z a / inject_Z b) - 1) * b < a
  ∧ a <= Math_ceil (inject_Z a / inject_Z b) * b.
Proof.
  intros Hb. destruct b as [|p|p]; [lia | | lia].
  unfold Math_ceil, Qceiling, Qfloor, Qdiv, Qmult, Qinv, Qopp, inject_Z.
  cbn. rewrite Z.mul_1_r. rewrite Pos.mul_1_l.
  pose proof (Z.div_mod (- a) (Z.pos p)) as Hdiv.
  pose proof (Z.mod_pos_bound (- a) (Z.pos p)) as Hmod.
  specialize (Hdiv ltac:(lia)). specialize (Hmod Hb).
  set (q := (- a) `div` Z.pos p) in *. lia.
Qed.

(** X25.  For a page from 1, a positive page size and a count of
    items, [getPaginationData] gives as [totalPages] the least number of
    pages that hold the items, as [skip] the number of items on the
    pages before, [hasMore] exactly when items are left after this page
    and [hasPrevious] exactly when the page is not the first.  With a
    page size of 0 and at least one item the number of pages is
    infinite: every page reports more. *)
Theorem getPaginationData_pages page limit total :
  1 <= page → 0 <= total →
  let d := getPaginationData page limit total in
  skip d = (page - 1) * limit
  ∧ (hasPrevious d = true ↔ 1 < page)
  ∧ (1 <= limit →
     ∃ n, totalPages d = Num n
          ∧ (n - 1) * limit < total <= n * limit
          ∧ (hasMore d = true ↔ skip d + limit < total))
  ∧ (limit = 0 → 0 < total →
     totalPages d = Infinity ∧ hasMore d = true).
Proof.
  intros Hpage Htotal d. split_and!.
  - done.
  - cbn. apply Z.ltb_lt.
  - intros Hlimit. unfold d, getPaginationData, ceil_div.
    destruct (Z.eqb_spec limit 0) as [->|_]; [lia|].
    destruct (Math_ceil_quotient total limit) as [Hlo Hhi]; [lia|].
    cbn [totalPages hasMore skip lt_num].
    eexists. split; [reflexivity|]. split; [lia|].
    rewrite Z.ltb_lt. split; nia.
  - intros -> Hpos. unfold d, getPaginationData, ceil_div. cbn.
    destruct (Z.eqb_spec total 0); [lia|].
    by destruct (Z.ltb_spec 0 total); [|lia].
Qed.

Lemma getPaginationData_pages_witness :
  totalPages (getPaginationData 3 20 45) = Num 3
  ∧ skip (getPaginationData 3 20 45) = 40
  ∧ hasMore (getPaginationData 3 20 45) = false
  ∧ hasMore (getPaginationData 2 20 45) = true.
Proof.
  destruct (getPaginationData_pages 3 20 45) as (Hskip & _ & Hn & _);
    [lia | lia |].
  destruct (getPaginationData_pages 2 20 45) as (_ & _ & Hn' & _);
    [lia | lia |].
  destruct Hn as (n & Hn & Hbounds & Hmore); [lia|].
  destruct Hn' as (n' & _ & _ & Hmore'); [lia|].
  split_and!.
  - rewrite Hn. f_equal. lia.
  - exact Hskip.
  - destruct (hasMore (getPaginationData 3 20 45)) eqn:Hm; [|done].
    destruct Hmore as [Hmore _]. specialize (Hmore eq_refl).
    rewrite Hskip in Hmore. lia.
  - apply Hmore'. vm_compute. reflexivity.
Defined.

End PaginationFacts.

(** ** Authentication middleware *)

Section AuthMiddlewareFacts.
Import AuthMiddleware.
Variable jwt_verify : string → JwtResult.

(** X26.  [optionalAuth] attaches a user exactly when [authenticate]
    lets the request pass, and then the same user; whenever
    [authenticate] answers 401 or 500 (no header, an empty token, a bad
    or expired token, an unknown user), [optionalAuth] lets the request
    through as a guest. *)
Theorem optionalAuth_agrees_with_authenticate authorization users :
  optionalAuth jwt_verify authorization users
  = match authenticate jwt_verify authorization users with
    | inr user => Some user
    | inl _ => None
    end
  ∧ ∀ res, authenticate jwt_verify authorization users = inl res →
           res_status res = 401 ∨ res_status res = 500.
Proof.
  unfold optionalAuth, authenticate.
  destruct (truthy_str (extractToken authorization)); cbn [negb].
  - destruct (jwt_verify _) as [userId| | |].
    + destruct (User_findById userId users); split; try done.
      intros res [= <-]. by left.
    + split; [done|]. intros res [= <-]. by left.
    + split; [done|]. intros res [= <-]. by left.
    + split; [done|]. intros res [= <-]. by right.
  - split; [done|]. intros res [= <-]. by left.
Qed.

(** X27.  A route behind [authenticate, adminOnly] runs its handler
    exactly for a token that verifies to the id of a stored user whose
    role is admin, and it runs it for that user.  Every other request
    is answered 401, 403 or 500, and the 403 only for a token that
    verifies to a stored user with another role. *)
Theorem adminRoute_only_for_admins authorization users :
  (∀ user,
     adminRoute jwt_verify authorization users = inr user ↔
     ∃ token userId,
       extractToken authorization = Some token
       ∧ token ≠ EmptyString
       ∧ jwt_verify token = Decoded userId
       ∧ User_findById userId users = Some user
       ∧ u_role user = "admin")
  ∧ (∀ res,
       adminRoute jwt_verify authorization users = inl res →
       res_status res = 401 ∨ res_status res = 500
       ∨ (res_status res = 403
          ∧ ∃ user, authenticate jwt_verify authorization users = inr user
                    ∧ u_role user ≠ "admin")).
Proof.
  unfold adminRoute, authenticate, adminOnly.
  destruct (extractToken authorization) as [token|] eqn:Htoken; cbn.
  2:{ split; [|intros res [= <-]; by left].
      intros user. split; [done|]. by intros (? & ? & ? & _). }
  case_bool_decide as Hempty; cbn.
  { split; [|intros res [= <-]; by left].
    intros user. split; [done|].
    intros (? & ? & [= <-] & ? & _). done. }
  destruct (jwt_verify token) as [userId| | |] eqn:Hjwt.
  - destruct (User_findById userId users) as [u|] eqn:Hfind.
    + case_bool_decide as Hrole; cbn.
      * split; [|done]. intros user. split.
        -- intros [= <-]. by exists token, userId.
        -- intros (? & ? & [= <-] & _ & Hjwt' & Hfind' & _).
           rewrite Hjwt in Hjwt'. injection Hjwt' as <-.
           rewrite Hfind in Hfind'. by injection Hfind' as <-.
      * split.
        -- intros user. split; [done|].
           intros (? & ? & [= <-] & _ & Hjwt' & Hfind' & Hadmin).
           rewrite Hjwt in Hjwt'. injection Hjwt' as <-.
           rewrite Hfind in Hfind'. injection Hfind' as <-. done.
        -- intros res [= <-]. right. right. split; [done|]. by exists u.
    + split; [|intros res [= <-]; by left].
      intros user. split; [done|].
      intros (? & ? & [= <-] & _ & Hjwt' & Hfind' & _).
      rewrite Hjwt in Hjwt'. injection Hjwt' as <-.
      by rewrite Hfind in Hfind'.
  - split; [|intros res [= <-]; by left].
    intros user. split; [done|].
    intros (? & ? & [= <-] & _ & Hjwt' & _). by rewrite Hjwt in Hjwt'.
  - split; [|intros res [= <-]; by left].
    intros user. split; [done|].
    intros (? & ? & [= <-] & _ & Hjwt' & _). by rewrite Hjwt in Hjwt'.
  - split; [|intros res [= <-]; by right; left].
    intros user. split; [done|].
    intros (? & ? & [= <-] & _ & Hjwt' & _). by rewrite Hjwt in Hjwt'.
Qed.

(** *** The token in the header *)

Lemma strip_prefix_Some pat s rest :
  strip_prefix pat s = Some rest → s = pat +:+ rest.
Proof.
  revert s. induction pat as [|a pat IH]; intros s; cbn [strip_prefix].
  - by intros [= ->].
  - destruct s as [|b s]; [done|].
    destruct (Ascii.eqb_spec a b) as [->|]; [|done].
    intros Hrest. by rewrite (IH s Hrest).
Qed.

Lemma replace_first_unfold pat c s :
  replace_first pat (String c s)
  = match strip_prefix pat (String c s) with
    | Some rest => rest
    | None => String c (replace_first pat s)
    end.
Proof. done. Qed.

Lemma replace_first_no_space s :
  no_space s = true → replace_first "Bearer " s = s.
Proof.
  induction s as [|c s IH]; [done|]. intros Hs.
  rewrite replace_first_unfold.
  destruct (strip_prefix "Bearer " (String c s)) as [rest|] eqn:Hstrip.
  - apply strip_prefix_Some in Hstrip. rewrite Hstrip in Hs.
    by vm_compute in Hs.
  - f_equal. apply IH. cbn in Hs. by apply andb_true_iff in Hs as [_ ?].
Qed.

Lemma replace_first_suffix s :
  no_space s = true → replace_first "Bearer " (s +:+ "Bearer ") = s.
Proof.
  induction s as [|c s IH]; [done|]. intros Hs.
  change (String c s +:+ "Bearer ") with (String c (s +:+ "Bearer ")).
  rewrite replace_first_unfold.
  destruct (strip_prefix "Bearer " (String c (s +:+ "Bearer ")))
    as [rest|] eqn:Hstrip.
  - exfalso. apply strip_prefix_Some in Hstrip.
    destruct s as [|c1 [|c2 [|c3 [|c4 [|c5 [|c6 s]]]]]];
      cbv [String.append] in Hstrip; simplify_eq.
  - f_equal. apply IH. cbn in Hs. by apply andb_true_iff in Hs as [_ ?].
Qed.

(** X28.  The word [Bearer] is neither required nor tied to the start
    of the header: for a token without a space, [authenticate] answers
    the header that is the bare token, and the header with [Bearer ]
    behind the token, as it answers the header [Bearer ] followed by the
    token. *)
Theorem authenticate_bearer_optional token users :
  no_space token = true →
  authenticate jwt_verify (Some token) users
  = authenticate jwt_verify (Some ("Bearer " +:+ token)) users
  ∧ authenticate jwt_verify (Some (token +:+ "Bearer ")) users
    = authenticate jwt_verify (Some ("Bearer " +:+ token)) users.
Proof.
  intros Hs. unfold authenticate, extractToken.
  cbn [fmap option_fmap option_map].
  rewrite (replace_first_no_space token Hs).
  rewrite (replace_first_suffix token Hs).
  by change (replace_first "Bearer " ("Bearer " +:+ token)) with token.
Qed.

End AuthMiddlewareFacts.

Lemma authenticate_bearer_optional_witness :
  AuthMiddleware.authenticate AuthScenario.jwt_verify
    (Some "token-of-karim") (AuthRoutes.users AuthScenario.db_admin)
  = inr (AuthMiddleware.without_password AuthScenario.karim)
  ∧ AuthMiddleware.authenticate AuthScenario.jwt_verify
      (Some "Bearer token-of-karim") (AuthRoutes.users AuthScenario.db_admin)
    = inr (AuthMiddleware.without_password AuthScenario.karim).
Proof.
  destruct (authenticate_bearer_optional AuthScenario.jwt_verify
              "token-of-karim" (AuthRoutes.users AuthScenario.db_admin))
    as [Hbare _]; [vm_compute; reflexivity|].
  split; [|vm_compute; reflexivity].
  rewrite Hbare. vm_compute. reflexivity.
Defined.
